(** * neural-cli: a shallow embedding of [neuralnet.py]

    The class [NeuralNet] of [src/neuralnet.py] trains a network with one
    hidden layer by regularised back-propagation.  This file embeds its
    methods and proves (or refutes) the properties its specification states.

    Conventions of the embedding.

    - The module is Python 2 code: [training_acc] and [test_acc] iterate with
      [xrange], a name that only Python 2 defines.  So [/] between two [int]s
      is floor division (it matters in [split], [training_acc] and
      [test_acc]: every other division of the module has a numpy float, a
      numpy matrix or [float(self.lam)] on one side).
    - A numpy [float64] is idealised as a real number: arithmetic is exact.
      The one place where the values [inf] and [nan] are kept is the result
      of [np.log], whose argument may be [0]: see [xreal].
    - A two-dimensional array is the list of its rows.  numpy raises
      [ValueError] when operands do not conform; the list operations below
      are total and agree with numpy on conforming operands, which is what
      every statement about them assumes ([has_shape]).  [np.reshape] is the
      exception: its failure is modelled, since the specification speaks of
      it. *)

From Stdlib Require Import String.
From Stdlib Require Import List Arith PeanoNat Lia Bool Reals Lra.
From Stdlib Require DecimalString.
Import ListNotations.

(** ** Python values: exceptions and sequences *)

Inductive exn : Type :=
| ValueError          (* numpy: cannot reshape array of size n into shape (r,c) *)
| ZeroDivisionError   (* float division by zero *)
| TypeError           (* call with the wrong number of arguments *)
| NameError           (* name is not defined *)
| AttributeError.     (* object has no such attribute *)

Inductive result (A : Type) : Type :=
| Ok (a : A)
| Raise (e : exn).

Arguments Ok {A} a.
Arguments Raise {A} e.

Section Sequences.
Context {A B C : Type}.

(** Elementwise combination of two sequences of the same length. *)
Fixpoint zipWith (f : A -> B -> C) (l : list A) (l' : list B) : list C :=
  match l, l' with
  | a :: t, b :: t' => f a b :: zipWith f t t'
  | _, _ => []
  end.

(** [l[a:b]] for [0 <= a], [0 <= b]: indices past the end are clamped. *)
Definition slice (a b : nat) (l : list A) : list A :=
  firstn (b - a) (skipn a l).
End Sequences.

(** ** numpy: shapes, [ravel], [reshape] *)

Section Reshape.
Context {A : Type}.

(** A list of rows is an [r] x [c] array. *)
Definition has_shape (r c : nat) (M : list (list A)) : Prop :=
  length M = r /\ Forall (fun row => length row = c) M.

(** [np.ravel(M)]: the entries in row-major order. *)
Definition ravel (M : list (list A)) : list A := concat M.

(** The rows of the [r] x [c] array laid over the buffer [v]. *)
Fixpoint rows_of (r c : nat) (v : list A) : list (list A) :=
  match r with
  | 0 => []
  | S r' => firstn c v :: rows_of r' c (skipn c v)
  end.

(** [np.reshape(v, (r, c))]: the size must be [r * c] exactly. *)
Definition reshape (v : list A) (r c : nat) : result (list (list A)) :=
  if length v =? r * c then Ok (rows_of r c v) else Raise ValueError.
End Reshape.

(** ** [split] (lines 319-343) *)

Module Split.

(** [int(round(k, 0))] on an [int] [k]: [round] returns [float(k)]. *)
Definition int_round0 (k : nat) : nat := k.

Definition split {A : Type} (input : list A)
  : list A * list A * list A :=
  let length := List.length input in
  let unit := length / 10 in              (* int / int: floor *)
  let train := int_round0 (unit * 6) in
  let cross_test := int_round0 (unit * 2) in
  let train_set := slice 0 train input in
  let cross_set := slice train (train + cross_test) input in
  let test_set := slice (train + cross_test) length input in
  (train_set, cross_set, test_set).

Definition sizes {A : Type} (s : list A * list A * list A)
  : nat * nat * nat :=
  let '(a, b, c) := s in (List.length a, List.length b, List.length c).

(** What the specification states: the nearest integer to [p * n / 10].
    [p * n / 10] is never half-way between two integers for even [p], so
    the tie-breaking rule of [round] plays no role. *)
Definition round_tenths (p n : nat) : nat := (p * n + 5) / 10.

Definition spec_sizes (n : nat) : nat * nat * nat :=
  let train := round_tenths 6 n in
  let cv := round_tenths 2 n in
  (train, cv, n - train - cv).

End Split.

(** ** Extended reals: what [np.log] returns

    [np.log(0.)] is [-inf] and [np.log] of a negative number is [nan]; both
    are values, not exceptions, and they propagate through [np.multiply],
    [-] and [np.sum] by the IEEE 754 rules. *)

Inductive xreal : Type :=
| Fin (r : R)
| PInf
| NInf
| NaN.

Module XReal.

Definition is_finite (x : xreal) : bool :=
  match x with Fin _ => true | _ => false end.

Definition np_log (x : R) : xreal :=
  if Rlt_dec 0 x then Fin (ln x)
  else if Req_dec_T x 0 then NInf else NaN.

(** A finite factor times an extended real ([0 * inf] is [nan]). *)
Definition xscale (r : R) (x : xreal) : xreal :=
  match x with
  | Fin a => Fin (r * a)
  | PInf => if Rlt_dec 0 r then PInf else if Rlt_dec r 0 then NInf else NaN
  | NInf => if Rlt_dec 0 r then NInf else if Rlt_dec r 0 then PInf else NaN
  | NaN => NaN
  end.

Definition xopp (x : xreal) : xreal :=
  match x with
  | Fin a => Fin (- a)
  | PInf => NInf
  | NInf => PInf
  | NaN => NaN
  end.

(** [inf + -inf] is [nan]. *)
Definition xadd (x y : xreal) : xreal :=
  match x, y with
  | Fin a, Fin b => Fin (a + b)
  | NaN, _ | _, NaN => NaN
  | PInf, NInf | NInf, PInf => NaN
  | PInf, _ | _, PInf => PInf
  | NInf, _ | _, NInf => NInf
  end.

Definition xsub (x y : xreal) : xreal := xadd x (xopp y).

(** [np.sum] of the entries. *)
Definition xsum (l : list xreal) : xreal := fold_left xadd l (Fin 0).

(** A [float64] divided by the [int] [m >= 0]: numpy warns and returns
    [nan] or an infinity when [m] is [0]. *)
Definition xdiv_int (x : xreal) (m : nat) : xreal :=
  match x with
  | Fin a =>
      match m with
      | 0 => if Rlt_dec 0 a then PInf else if Rlt_dec a 0 then NInf else NaN
      | S _ => Fin (a / INR m)
      end
  | _ => x
  end.

End XReal.

(** ** numpy matrices of reals *)

Definition vec : Type := list R.
Definition matrix : Type := list vec.

Module Np.

Definition ones (m : nat) : vec := repeat 1%R m.

(** [np.zeros(M.shape)] *)
Definition zeros_like (M : matrix) : matrix := map (map (fun _ => 0%R)) M.

(** [np.insert(M, 0, values=v, axis=1)]: [v] becomes column 0. *)
Definition insert_col0 (v : vec) (M : matrix) : matrix := zipWith cons v M.

(** [M[t,:]]: a matrix of one row. *)
Definition row (t : nat) (M : matrix) : matrix := [nth t M []].

(** [M[:,1:]] *)
Definition cols_from1 (M : matrix) : matrix := map (@tl R) M.

Definition ncols (M : matrix) : nat :=
  match M with [] => 0 | r :: _ => length r end.

Definition col (j : nat) (M : matrix) : vec :=
  map (fun r => nth j r 0%R) M.

(** [M.T] *)
Definition transpose (M : matrix) : matrix :=
  map (fun j => col j M) (seq 0 (ncols M)).

Definition dot (u v : vec) : R := fold_right Rplus 0%R (zipWith Rmult u v).

(** [A * B] on [np.matrix] operands: the matrix product. *)
Definition mmul (A B : matrix) : matrix :=
  map (fun a => map (fun b => dot a b) (transpose B)) A.

Definition madd (A B : matrix) : matrix := zipWith (zipWith Rplus) A B.
Definition msub (A B : matrix) : matrix := zipWith (zipWith Rminus) A B.

(** [np.multiply(A, B)]: the elementwise product. *)
Definition multiply (A B : matrix) : matrix := zipWith (zipWith Rmult) A B.

(** [M * s] and [M / m] with a scalar. *)
Definition mscale (M : matrix) (s : R) : matrix :=
  map (map (fun x => x * s)%R) M.
Definition mdiv (M : matrix) (m : nat) : matrix :=
  map (map (fun x => x / INR m)%R) M.

(** [np.sum(np.power(M, 2))] *)
Definition sum_squares (M : matrix) : R :=
  fold_right Rplus 0%R (map (fun x => x ^ 2)%R (ravel M)).

(** [D[:,1:] = N]: column 0 of [D] is kept, the others are overwritten. *)
Definition set_cols_from1 (D N : matrix) : matrix :=
  zipWith (fun d n => firstn 1 d ++ n) D N.

(** [x.clip(lo)]: entries below [lo] are raised to [lo]. *)
Definition clip (lo : R) (x : R) : R := Rmax x lo.

End Np.

(** ** The class [NeuralNet] *)

(** The attributes [__init__] sets.  [self.writer] is a reference to the
    caller's sink: what the sink has received is part of the [World]. *)
Record NeuralNet : Type := {
  X : matrix;
  Y : matrix;
  num_labels : nat;
  input_size : nat;
  hidden_size : nat;
  lam : R;
  output : string;
  params : vec;
  maxiter : nat
}.

(** Everything a method can change: the instance, the values written to
    [self.writer] (oldest first) and the files written (newest first). *)
Record World : Type := {
  self : NeuralNet;
  sink : list xreal;
  files : list (string * vec)
}.

(** Methods are state transformers that may raise; the state reached when
    the exception is raised is kept. *)
Definition M (A : Type) : Type := World -> result A * World.

Definition ret {A : Type} (a : A) : M A := fun w => (Ok a, w).

Definition raise {A : Type} (e : exn) : M A := fun w => (Raise e, w).

Definition bind {A B : Type} (c : M A) (k : A -> M B) : M B :=
  fun w =>
    match c w with
    | (Ok a, w') => k a w'
    | (Raise e, w') => (Raise e, w')
    end.

Definition lift {A : Type} (r : result A) : M A := fun w => (r, w).

Declare Scope py_scope.
Delimit Scope py_scope with py.
Notation "x <- c ;; k" := (bind c (fun x => k))
  (at level 61, c at next level, right associativity) : py_scope.
Notation "' pat <- c ;; k" := (bind c (fun x => match x with pat => k end))
  (at level 61, pat pattern, c at next level, right associativity) : py_scope.
Notation "c ;; k" := (bind c (fun _ => k))
  (at level 61, right associativity) : py_scope.
Open Scope py_scope.

Definition get_self : M NeuralNet := fun w => (Ok (self w), w).

(** [self.params = p] *)
Definition assign_params (p : vec) : M unit :=
  fun w =>
    let s := self w in
    (Ok tt,
     {| self := {| X := X s; Y := Y s; num_labels := num_labels s;
                   input_size := input_size s; hidden_size := hidden_size s;
                   lam := lam s; output := output s; params := p;
                   maxiter := maxiter s |};
        sink := sink w; files := files w |}).

(** [self.writer.write(J)] *)
Definition writer_write (J : xreal) : M unit :=
  fun w => (Ok tt, {| self := self w; sink := sink w ++ [J]; files := files w |}).

(** [csv.writer(open(name, 'w')).writerow(row)] *)
Definition csv_writerow (name : string) (row : vec) : M unit :=
  fun w =>
    (Ok tt, {| self := self w; sink := sink w; files := (name, row) :: files w |}).

Module Net.
Import XReal Np.

(** [set_params] (lines 87-95) *)
Definition set_params (p : vec) : M unit := assign_params p.

(** [sigmoid] (lines 97-108) *)
Definition sigmoid (z : R) : R := (1 / (1 + exp (- z)))%R.

(** [sigmoid_gradient] (lines 110-121) *)
Definition sigmoid_gradient (z : R) : R := (sigmoid z * (1 - sigmoid z))%R.

(** The length [generate_params] draws (line 72). *)
Definition params_size (s : NeuralNet) : nat :=
  hidden_size s * (input_size s + 1) + num_labels s * (hidden_size s + 1).

(** [reshape_theta] (lines 123-138).  [params[:k]] and [params[k:]] never
    fail; the two [np.reshape] calls do. *)
Definition reshape_theta (s : NeuralNet) (params : vec)
  : result (matrix * matrix) :=
  let k := hidden_size s * (input_size s + 1) in
  match reshape (firstn k params) (hidden_size s) (input_size s + 1) with
  | Raise e => Raise e
  | Ok theta1 =>
      match reshape (skipn k params) (num_labels s) (hidden_size s + 1) with
      | Raise e => Raise e
      | Ok theta2 => Ok (theta1, theta2)
      end
  end.

(** The flat vector of two matrices, as line 225 builds it:
    [np.concatenate((np.ravel(T1), np.ravel(T2)))]. *)
Definition flatten (T1 T2 : matrix) : vec := ravel T1 ++ ravel T2.

(** [feed_forward] (lines 140-166) *)
Definition feed_forward (X theta1 theta2 : matrix)
  : matrix * matrix * matrix * matrix * matrix :=
  let m := length X in
  let a1 := insert_col0 (ones m) X in
  let z2 := mmul a1 (transpose theta1) in
  let a2 := insert_col0 (ones m) (map (map sigmoid) z2) in
  let z3 := mmul a2 (transpose theta2) in
  let h := map (map sigmoid) z3 in
  (a1, z2, a2, z3, h).

(** [get_cost] (lines 229-246), with its default [minval]. *)
Definition minval : R := (/ 10 ^ 10)%R.

Definition get_cost (y h : matrix) : xreal :=
  let first_term :=
    zipWith (zipWith xscale) (map (map Ropp) y)
            (map (map (fun v => np_log (clip minval v))) h) in
  let second_term :=
    zipWith (zipWith xscale) (map (map (fun v => 1 - v)%R) y)
            (map (map (fun v => np_log (1 - clip minval v))) h) in
  xsum (ravel (zipWith (zipWith xsub) first_term second_term)).

(** One turn of the loop of [fit] (lines 204-217). *)
Definition backprop_step (theta2 a1 z2 a2 h y : matrix)
           (acc : matrix * matrix) (t : nat) : matrix * matrix :=
  let '(delta1, delta2) := acc in
  let a1t := row t a1 in
  let z2t := row t z2 in
  let a2t := row t a2 in
  let ht := row t h in
  let yt := row t y in
  let d3t := msub ht yt in
  let z2t := [1%R :: ravel z2t] in     (* np.insert(z2t, 0, values=np.ones(1)) *)
  let d2t := multiply (transpose (mmul (transpose theta2) (transpose d3t)))
                      (map (map sigmoid_gradient) z2t) in
  (madd delta1 (mmul (transpose (cols_from1 d2t)) a1t),
   madd delta2 (mmul (transpose d3t) a2t)).

(** The loop of lines 204-217, from the accumulators [acc]. *)
Definition backprop (theta2 a1 z2 a2 h y : matrix) (m : nat)
           (acc : matrix * matrix) : matrix * matrix :=
  fold_left (backprop_step theta2 a1 z2 a2 h y) (seq 0 m) acc.

(** Lines 222-223: [delta[:,1:] = delta[:,1:] + (theta[:,1:] * lam) / m]. *)
Definition regularize (lam : R) (m : nat) (delta theta : matrix) : matrix :=
  set_cols_from1 delta
    (madd (cols_from1 delta) (mdiv (mscale (cols_from1 theta) lam) m)).

(** Lines 198-200 of [fit]: the regularised cost.
    [float(self.lam) / (2 * m)] divides a Python float by the [int]
    [2 * m], which raises when [m] is [0]. *)
Definition regularized_cost (s : NeuralNet) (theta1 theta2 y h : matrix)
           (m : nat) : result xreal :=
  let J := xdiv_int (get_cost y h) m in
  match m with
  | 0 => Raise ZeroDivisionError
  | S _ =>
      Ok (xadd J (Fin (lam s / (2 * INR m)
                       * (sum_squares (cols_from1 theta1)
                          + sum_squares (cols_from1 theta2)))))
  end.

(** Lines 195-196 and 204-225 of [fit]: the flat gradient. *)
Definition gradient (s : NeuralNet) (theta1 theta2 a1 z2 a2 h y : matrix)
           (m : nat) : vec :=
  let delta1 := zeros_like theta1 in
  let delta2 := zeros_like theta2 in
  let '(delta1, delta2) := backprop theta2 a1 z2 a2 h y m (delta1, delta2) in
  let delta1 := mdiv delta1 m in
  let delta2 := mdiv delta2 m in
  let delta1 := regularize (lam s) m delta1 theta1 in
  let delta2 := regularize (lam s) m delta2 theta2 in
  flatten delta1 delta2.

(** [fit] (lines 168-227) *)
Definition fit (params : vec) (X y : matrix) (output : bool)
  : M (xreal * vec) :=
  s <- get_self ;;
  let m := length X in
  ' (theta1, theta2) <- lift (reshape_theta s params) ;;
  let '(a1, z2, a2, z3, h) := feed_forward X theta1 theta2 in
  J <- lift (regularized_cost s theta1 theta2 y h m) ;;
  (if output then writer_write J else ret tt) ;;
  let grad := gradient s theta1 theta2 a1 z2 a2 h y m in
  ret (J, grad).

End Net.

(** ** The optimizer and [train] (lines 43-62)

    [scipy.optimize.minimize] is a black box.  All it does that the class
    can observe is to call the objective at points of its choice, a finite
    number of times, and to return a vector: a strategy tree.  It works on
    its own copy of [x0] and has no access to the instance other than
    through the objective. *)

Inductive optimizer : Type :=
| Converged (x : vec)
| Evaluate (x : vec) (k : xreal * vec -> optimizer).

Module Trainer.
Import Net.

(** The optimizer running with [fun=self.fit, args=(X, Y, verbose),
    jac=True]: an exception of the objective ends the run. *)
Fixpoint run (o : optimizer) (X Y : matrix) (verbose : bool) : M vec :=
  match o with
  | Converged x => ret x
  | Evaluate x k => r <- fit x X Y verbose ;; run (k r) X Y verbose
  end.

Section Train.
(** [minimize x0 maxiter]: the strategy for a starting point and an
    iteration budget. *)
Variable minimize : vec -> nat -> optimizer.

Definition train (verbose save : bool) : M vec :=
  s <- get_self ;;
  fmin_x <- run (minimize (params s) (maxiter s)) (X s) (Y s) verbose ;;
  (if save then csv_writerow (output s) fmin_x else ret tt) ;;
  ret fmin_x.
End Train.

End Trainer.

(** ** [predict] (lines 304-317)

    The method is declared [def predict(x):], without [self].  Python binds
    the instance as first positional argument of every call through an
    instance, so the calling convention matters here and is modelled: the
    actual arguments are bound to the formal ones, and a name is looked up
    in the resulting frame (the module defines no global [self]). *)

Inductive value : Type :=
| Instance               (* the [NeuralNet] object *)
| Array (a : matrix).

Definition frame : Type := list (string * value).

Module Call.

(** Positional binding: the counts must agree. *)
Definition bind_args (formals : list string) (actuals : list value)
  : result frame :=
  if length formals =? length actuals
  then Ok (combine formals actuals) else Raise TypeError.

Fixpoint lookup (name : string) (f : frame) : result value :=
  match f with
  | [] => Raise NameError
  | (n, v) :: f' => if String.eqb n name then Ok v else lookup name f'
  end.

(** [obj.method(args)]: the instance goes first. *)
Definition call_method {A : Type} (formals : list string)
           (body : frame -> M A) (args : list value) : M A :=
  f <- lift (bind_args formals (Instance :: args)) ;; body f.

End Call.

Module Predict.
Import Net Call.

Definition predict_formals : list string := ["x"%string].

(** The body, in a frame.  An array has no [reshape_theta], and the
    instance has no [shape]. *)
Definition predict_body (f : frame) : M matrix :=
  me <- lift (lookup "self" f) ;;
  match me with
  | Array _ => raise AttributeError
  | Instance =>
      s <- get_self ;;
      ' (theta1, theta2) <- lift (reshape_theta s (params s)) ;;
      x <- lift (lookup "x" f) ;;
      match x with
      | Instance => raise AttributeError
      | Array x =>
          let '(_, _, _, _, h) := feed_forward x theta1 theta2 in ret h
      end
  end.

(** [nn.predict(args)] *)
Definition predict (args : list value) : M matrix :=
  call_method predict_formals predict_body args.

End Predict.

(** ** Notions of the specification *)

(** Section 3: a label matrix is one-hot, exactly one [1] per row and [0]
    elsewhere. *)
Definition one_hot_row (r : vec) : Prop :=
  exists j, j < length r
            /\ forall i, i < length r ->
                         nth i r 0%R = if i =? j then 1%R else 0%R.

Definition one_hot (y : matrix) : Prop := Forall one_hot_row y.

(** Entry [(i, j)] of a matrix. *)
Definition entry (M : matrix) (i j : nat) : R := nth j (nth i M []) 0%R.

(** [A.B^T] in the words of the specification: entry [(i, j)] is the dot
    product of row [i] of [A] and row [j] of [B]. *)
Definition times_transposed (A B : matrix) : matrix :=
  map (fun a => map (fun b => Np.dot a b) B) A.

(** The activation of section 4.2, written out:
    [sigma(z) = 1 / (1 + e^-z)]. *)
Definition sigma (z : R) : R := (1 / (1 + exp (- z)))%R.

(** The forward pass in the words of section 4.2. *)
Definition forward_spec (X Theta1 Theta2 : matrix)
  : matrix * matrix * matrix * matrix * matrix :=
  let a1 := map (cons 1%R) X in
  let z2 := times_transposed a1 Theta1 in
  let a2 := map (fun r => 1%R :: map sigma r) z2 in
  let z3 := times_transposed a2 Theta2 in
  let h := map (map sigma) z3 in
  (a1, z2, a2, z3, h).

(** The accumulators of the loop of [fit] have the shapes of the weights. *)
Definition accumulators_shaped (hid k L : nat) (acc : matrix * matrix)
  : Prop :=
  has_shape hid (k + 1) (fst acc) /\ has_shape L (hid + 1) (snd acc).

(** The summand of [get_cost] for a label [y] and a prediction [h]. *)
Definition cost_term (y h : R) : xreal :=
  XReal.xsub
    (XReal.xscale (- y) (XReal.np_log (Np.clip Net.minval h)))
    (XReal.xscale (1 - y) (XReal.np_log (1 - Np.clip Net.minval h))).

(** The same world, the instance built with another [lam]. *)
Definition with_lam (l : R) (w : World) : World :=
  let s := self w in
  {| self := {| X := X s; Y := Y s; num_labels := num_labels s;
                input_size := input_size s; hidden_size := hidden_size s;
                lam := l; output := output s; params := params s;
                maxiter := maxiter s |};
     sink := sink w; files := files w |}.

(** ** [generate_params] (lines 64-72)

    [np.random.random(size=n)] returns [n] draws from the half-open
    interval [[0, 1)].  The generator is the sequence of its draws. *)

Module Init.
Import Net.

Definition random_sample (rng : nat -> R) (size : nat) : vec :=
  map rng (seq 0 size).

(** [(np.random.random(size=...) - 0.5) * 0.25] *)
Definition generate_params (s : NeuralNet) (rng : nat -> R) : vec :=
  map (fun u => (u - 0.5) * 0.25)%R (random_sample rng (params_size s)).

End Init.

(** ** [training_acc] and [test_acc] (lines 248-302)

    Both methods write one line of text to [self.writer].  The lines are
    kept beside the [World], whose [sink] holds the costs [fit] writes. *)

Record Console : Type := {
  world : World;
  lines : list string
}.

Module Report.
Import Np Net.

(** [str(n)] for an [int] [n >= 0]. *)
Definition str (n : nat) : string :=
  DecimalString.NilZero.string_of_uint (Nat.to_uint n).

(** [self.writer.write(text)] *)
Definition write_line (text : string) (c : Console) : Console :=
  {| world := world c; lines := lines c ++ [text] |}.

(** The index of the first largest entry, scanning from index [i] with the
    best entry so far [best] at index [best_i]. *)
Fixpoint argmax_from (best_i : nat) (best : R) (i : nat) (l : vec) : nat :=
  match l with
  | [] => best_i
  | x :: l' =>
      if Rlt_dec best x then argmax_from i x (S i) l'
      else argmax_from best_i best (S i) l'
  end.

(** [np.argmax] of one row: numpy refuses an empty sequence. *)
Definition argmax (r : vec) : result nat :=
  match r with
  | [] => Raise ValueError
  | x :: l => Ok (argmax_from 0 x 1 l)
  end.

(** [np.array(np.argmax(h, axis=1))] *)
Fixpoint argmax_rows (h : matrix) : result (list nat) :=
  match h with
  | [] => Ok []
  | r :: h' =>
      match argmax r with
      | Raise e => Raise e
      | Ok j =>
          match argmax_rows h' with
          | Raise e => Raise e
          | Ok js => Ok (j :: js)
          end
      end
  end.

(** The loop [for x in xrange(examples): if Y[x, y_pred[x]] == 1:
    correct += 1].  The indices are in range when [Y] has one row per
    prediction and one column per label; numpy raises [IndexError]
    otherwise, which the list lookups do not show. *)
Definition count_correct (Y : matrix) (y_pred : list nat) (examples : nat)
  : nat :=
  fold_left
    (fun correct x =>
       if Req_dec_T (entry Y x (nth x y_pred 0)) 1 then correct + 1
       else correct)
    (seq 0 examples) 0.

(** Lines 261-271 and 292-302, the same but for the label of the line:
    predict, count, divide and write.  [correct / examples] divides two
    [int]s: it floors, and raises when [examples] is [0]. *)
Definition report_accuracy (label : string) (s : NeuralNet) (params : vec)
           (X Y : matrix) (c : Console) : result unit * Console :=
  match reshape_theta s params with
  | Raise e => (Raise e, c)
  | Ok (theta1, theta2) =>
      let '(a1, z2, a2, z3, h) := feed_forward X theta1 theta2 in
      match argmax_rows h with
      | Raise e => (Raise e, c)
      | Ok y_pred =>
          let examples := length Y in
          let correct := count_correct Y y_pred examples in
          match examples with
          | 0 => (Raise ZeroDivisionError, c)
          | S _ =>
              let accuracy := correct / examples in
              (Ok tt,
               write_line (label ++ " accuracy = " ++ str (accuracy * 100)
                                 ++ "%")%string c)
          end
      end
  end.

(** [training_acc] (lines 248-271).  [loaded] is the one-dimensional array
    [load_params] read when [from_file] is given (a file of one line and at
    least two values), [None] when it is not. *)
Definition training_acc (loaded : option vec) (c : Console)
  : result unit * Console :=
  let s := self (world c) in
  let params := match loaded with Some p => p | None => params s end in
  report_accuracy "train" s params (X s) (Y s) c.

Section TestAcc.
(** [sklearn.preprocessing.normalize], which may refuse its input. *)
Variable normalize : matrix -> result matrix.

(** [test_acc] (lines 273-302) *)
Definition test_acc (X Y : matrix) (loaded : option vec) (c : Console)
  : result unit * Console :=
  match normalize X with
  | Raise e => (Raise e, c)
  | Ok X =>
      let s := self (world c) in
      let params := match loaded with Some p => p | None => params s end in
      report_accuracy "test" s params X Y c
  end.
End TestAcc.

End Report.

(** ** [test] (lines 345-390)

    The learning curve.  The two lists of costs are what the method hands
    to [plt.plot]; here they are its value.  A [while] loop need not end:
    the loop runs on fuel, and [None] says that the fuel ran out. *)

Module Diagnostics.
Import Net Trainer Init Report.

Definition curves : Type := (list xreal * list xreal)%type.

(** A method of the class run on the world of a console. *)
Definition in_world {A : Type} (c : M A) (k : Console)
  : result A * Console :=
  let (r, w') := c (world k) in (r, {| world := w'; lines := lines k |}).

(** ["running at index %s of %s" % (i, n)] *)
Definition status_line (i n : nat) : string :=
  ("running at index " ++ str i ++ " of " ++ str n)%string.

(** The loop variables: the curves, [amount], [i] and the number of draws
    taken from the random generator so far. *)
Record loop_state : Type := {
  errors : curves;
  amount : nat;
  index : nat;
  drawn : nat
}.

Section Test.
Variable minimize : vec -> nat -> optimizer.
Variable rng : nat -> R.
Variable step : nat.
Variables x_train y_train x_cross_validation y_cross_validation : matrix.

(** The body of the loop (lines 367-381). *)
Definition test_turn (st : loop_state) (k : Console)
  : result loop_state * Console :=
  let i := index st in
  let k := write_line (status_line i (length x_train)) k in
  let s := self (world k) in
  let params := generate_params s (fun n => rng (drawn st + n)) in
  let current_input := slice 0 i x_train in
  let current_output := slice 0 i y_train in
  match in_world (run (minimize params (maxiter s))
                    current_input current_output false) k with
  | (Raise e, k) => (Raise e, k)
  | (Ok fmin_x, k) =>
      match in_world (fit fmin_x current_input current_output false) k with
      | (Raise e, k) => (Raise e, k)
      | (Ok (train_cost, _), k) =>
          match in_world (fit fmin_x x_cross_validation
                            y_cross_validation false) k with
          | (Raise e, k) => (Raise e, k)
          | (Ok (val_cost, _), k) =>
              (Ok {| errors := (fst (errors st) ++ [train_cost],
                                snd (errors st) ++ [val_cost]);
                     amount := amount st + 1;
                     index := (amount st + 1) * step;
                     drawn := drawn st + params_size s |},
               k)
          end
      end
  end.

(** [while i < len(x_train): ...] *)
Fixpoint test_loop (fuel : nat) (st : loop_state) (k : Console)
  : option (result curves * Console) :=
  if index st <? length x_train then
    match fuel with
    | 0 => None
    | S fuel' =>
        match test_turn st k with
        | (Raise e, k') => Some (Raise e, k')
        | (Ok st', k') => test_loop fuel' st' k'
        end
    end
  else Some (Ok (errors st), k).
End Test.

Definition test (minimize : vec -> nat -> optimizer) (rng : nat -> R)
           (fuel : nat) (step : nat) (k : Console)
  : option (result curves * Console) :=
  let s := self (world k) in
  let '(x_train, x_cross_validation, x_test) := Split.split (X s) in
  let '(y_train, y_cross_validation, y_test) := Split.split (Y s) in
  test_loop minimize rng step x_train y_train
    x_cross_validation y_cross_validation fuel
    {| errors := ([], []); amount := 0; index := 1; drawn := 0 |} k.

(** The status lines of [turns] turns of the loop started with [i] and
    [amount]: the first is for [i], the following ones for the multiples
    [(amount+1)*step], [(amount+2)*step], ... *)
Fixpoint trace (step n : nat) (i amount turns : nat) : list string :=
  match turns with
  | 0 => []
  | S turns' =>
      status_line i n :: trace step n ((amount + 1) * step) (amount + 1) turns'
  end.

End Diagnostics.

(** ** Concrete instances used in the examples below *)

Module Examples.

(** One input feature, one hidden unit, one label: four parameters. *)
Definition tiny : NeuralNet :=
  {| X := [[1%R]]; Y := [[1%R]];
     num_labels := 1; input_size := 1; hidden_size := 1;
     lam := 1%R; output := "./params"%string;
     params := [0; 0; 0; 0]%R; maxiter := 250 |}.

Definition tiny_world : World :=
  {| self := tiny; sink := []; files := [] |}.

(** An optimizer that evaluates the objective at the starting point and
    then answers [[1; 1; 1; 1]]. *)
Definition one_step_minimize (x0 : vec) (maxiter : nat) : optimizer :=
  Evaluate x0 (fun _ => Converged [1; 1; 1; 1]%R).

(** Fifteen rows, numbered. *)
Definition rows15 : list nat := seq 0 15.

End Examples.

(** ** Back-propagation in the words of section 4.4 *)

(** The sum of [f t] over the examples [t = 0 .. m-1]. *)
Definition sum_over (m : nat) (f : nat -> R) : R :=
  fold_right Rplus 0%R (map f (seq 0 m)).

(** The output residual of example [t]: [h_t - y_t]. *)
Definition residual3 (h y : matrix) (t : nat) : vec :=
  zipWith Rminus (nth t h []) (nth t y []).

(** Entry [c] of the hidden residual of example [t]:
    [(Theta2^T . d3_t)_c * sigmoid'(z2_t with bias)_c]. *)
Definition residual2 (theta2 z2 h y : matrix) (t c : nat) : R :=
  (Np.dot (Np.col c theta2) (residual3 h y t)
   * Net.sigmoid_gradient (nth c (1 :: nth t z2 []) 0))%R.

Module MoreExamples.

(** [Examples.tiny] with a stored vector one entry short. *)
Definition misfit : NeuralNet :=
  {| X := [[1%R]]; Y := [[1%R]];
     num_labels := 1; input_size := 1; hidden_size := 1;
     lam := 1%R; output := "./params"%string;
     params := [0; 0; 0]%R; maxiter := 250 |}.

Definition misfit_world : World :=
  {| self := misfit; sink := []; files := [] |}.

(** One feature, one hidden unit, two labels; two examples with the same
    input and different labels; all weights zero. *)
Definition two_labels : NeuralNet :=
  {| X := [[1%R]; [1%R]]; Y := [[1; 0]%R; [0; 1]%R];
     num_labels := 2; input_size := 1; hidden_size := 1;
     lam := 1%R; output := "./params"%string;
     params := [0; 0; 0; 0; 0; 0]%R; maxiter := 250 |}.

Definition two_labels_console : Console :=
  {| world := {| self := two_labels; sink := []; files := [] |};
     lines := [] |}.

(** Ten examples of one feature and one label. *)
Definition ten_rows : NeuralNet :=
  {| X := repeat [1%R] 10; Y := repeat [1%R] 10;
     num_labels := 1; input_size := 1; hidden_size := 1;
     lam := 1%R; output := "./params"%string;
     params := [0; 0; 0; 0]%R; maxiter := 250 |}.

Definition ten_rows_console : Console :=
  {| world := {| self := ten_rows; sink := []; files := [] |};
     lines := [] |}.

(** The cost [fit] returns at [v] on the examples [(X, y)]. *)
Definition cost_of (v : vec) (X y : matrix) (w : World) : xreal :=
  match fst (Net.fit v X y false w) with
  | Ok (J, _) => J
  | Raise _ => NaN
  end.

(** [test(step=3)] on [ten_rows] with [Examples.one_step_minimize]: the
    training block has 6 rows and the cross-validation block 2, so the
    loop runs for [i = 1] and [i = 3] and stops at [i = 6].  The curves
    hold the costs at the optimizer's answer on 1 and on 3 training
    examples, and twice the cost on the 2 cross-validation examples. *)
Definition ten_rows_curves : Diagnostics.curves :=
  let w := world ten_rows_console in
  let x := [1; 1; 1; 1]%R in
  ([cost_of x (repeat [1%R] 1) (repeat [1%R] 1) w;
    cost_of x (repeat [1%R] 3) (repeat [1%R] 3) w],
   [cost_of x (repeat [1%R] 2) (repeat [1%R] 2) w;
    cost_of x (repeat [1%R] 2) (repeat [1%R] 2) w]).

Definition ten_rows_after : Console :=
  {| world := world ten_rows_console;
     lines := ["running at index 1 of 6"%string;
               "running at index 3 of 6"%string] |}.

End MoreExamples.

(** * Properties *)

(** ** Sequences and shapes *)

Section SequenceFacts.
Context {A B C : Type}.

Lemma zipWith_length (f : A -> B -> C) (l : list A) (l' : list B) :
  length (zipWith f l l') = Nat.min (length l) (length l').
Proof.
  revert l'; induction l as [|a l IH]; intros [|b l']; simpl; auto.
Qed.

Lemma zipWith_nth (f : A -> B -> C) (l : list A) (l' : list B)
      (i : nat) (da : A) (db : B) (dc : C) :
  i < length l -> i < length l' ->
  nth i (zipWith f l l') dc = f (nth i l da) (nth i l' db).
Proof.
  revert l' i; induction l as [|a l IH]; intros [|b l'] [|i]; simpl;
    intros Hl Hl'; try lia; auto.
  apply IH; lia.
Qed.

Lemma zipWith_repeat_l (f : A -> B -> C) (a : A) (l' : list B) :
  zipWith f (repeat a (length l')) l' = map (f a) l'.
Proof.
  induction l' as [|b l' IH]; simpl; congruence.
Qed.

Lemma slice_0 (b : nat) (l : list A) : slice 0 b l = firstn b l.
Proof.
  unfold slice. now rewrite Nat.sub_0_r.
Qed.

Lemma slice_to_end (a : nat) (l : list A) :
  slice a (length l) l = skipn a l.
Proof.
  unfold slice. apply firstn_all2. rewrite length_skipn. lia.
Qed.

Lemma slice_length (a b : nat) (l : list A) :
  b <= length l -> length (slice a b l) = b - a.
Proof.
  intros H. unfold slice. rewrite length_firstn, length_skipn. lia.
Qed.
End SequenceFacts.

Section ShapeFacts.
Context {A : Type}.

Lemma has_shape_nil (c : nat) : has_shape 0 c (@nil (list A)).
Proof.
  split; [reflexivity | constructor].
Qed.

Lemma has_shape_cons (r c : nat) (row : list A) (M : list (list A)) :
  length row = c -> has_shape r c M -> has_shape (S r) c (row :: M).
Proof.
  intros Hrow [Hlen Hall]. split; simpl; [congruence | now constructor].
Qed.

Lemma has_shape_inv (r c : nat) (row : list A) (M : list (list A)) :
  has_shape r c (row :: M) ->
  length row = c /\ has_shape (pred r) c M.
Proof.
  intros [Hlen Hall]. inversion Hall; subst. simpl.
  repeat split; auto.
Qed.

Lemma has_shape_row (r c : nat) (M : list (list A)) (t : nat) :
  has_shape r c M -> t < r -> length (nth t M []) = c.
Proof.
  intros [Hlen Hall] Ht.
  rewrite Forall_forall in Hall. apply Hall, nth_In. lia.
Qed.

Lemma ravel_length (r c : nat) (M : list (list A)) :
  has_shape r c M -> length (ravel M) = r * c.
Proof.
  revert r; induction M as [|row M IH]; intros r H.
  - destruct H as [H _]. simpl in H. now subst.
  - apply has_shape_inv in H as H'. destruct H' as [Hrow HM].
    destruct H as [Hlen _]. simpl in Hlen. subst r.
    unfold ravel in *. simpl. rewrite length_app, (IH _ HM), Hrow.
    simpl. lia.
Qed.

Lemma rows_of_shape (r c : nat) (v : list A) :
  length v = r * c -> has_shape r c (rows_of r c v).
Proof.
  revert v; induction r as [|r IH]; intros v Hv; simpl.
  - apply has_shape_nil.
  - apply has_shape_cons.
    + rewrite length_firstn. simpl in Hv. lia.
    + apply IH. rewrite length_skipn. simpl in Hv. lia.
Qed.

Lemma ravel_rows_of (r c : nat) (v : list A) :
  length v = r * c -> ravel (rows_of r c v) = v.
Proof.
  revert v; induction r as [|r IH]; intros v Hv; simpl.
  - simpl in Hv. apply length_zero_iff_nil in Hv. now subst.
  - unfold ravel in *. simpl. rewrite IH.
    + apply firstn_skipn.
    + rewrite length_skipn. simpl in Hv. lia.
Qed.

Lemma rows_of_ravel (r c : nat) (M : list (list A)) :
  has_shape r c M -> rows_of r c (ravel M) = M.
Proof.
  revert r; induction M as [|row M IH]; intros r H.
  - destruct H as [H _]. simpl in H. now subst.
  - apply has_shape_inv in H as H'. destruct H' as [Hrow HM].
    destruct H as [Hlen _]. simpl in Hlen. subst r.
    unfold ravel in *. simpl.
    rewrite firstn_app, skipn_app, Hrow, Nat.sub_diag.
    rewrite firstn_all2, skipn_all2 by lia. simpl.
    rewrite app_nil_r. f_equal. now apply IH.
Qed.

Lemma reshape_ok (r c : nat) (v : list A) :
  length v = r * c -> reshape v r c = Ok (rows_of r c v).
Proof.
  intros H. unfold reshape. now rewrite H, Nat.eqb_refl.
Qed.

Lemma reshape_fails (r c : nat) (v : list A) :
  length v <> r * c -> reshape v r c = Raise ValueError.
Proof.
  intros H. unfold reshape.
  now destruct (Nat.eqb_spec (length v) (r * c)).
Qed.
End ShapeFacts.

(** ** The parameter codec: [reshape_theta] and line 225 *)

Section Codec.
Import Net.
Variable s : NeuralNet.

Let h := hidden_size s.
Let k := input_size s.
Let L := num_labels s.

Lemma reshape_theta_ok (v : vec) :
  length v = params_size s ->
  reshape_theta s v =
    Ok (rows_of h (k + 1) (firstn (h * (k + 1)) v),
        rows_of L (h + 1) (skipn (h * (k + 1)) v)).
Proof.
  unfold params_size, reshape_theta; fold h k L; intros Hv.
  rewrite !reshape_ok; auto.
  - rewrite length_skipn. lia.
  - rewrite length_firstn. lia.
Qed.

Lemma reshape_theta_fails (v : vec) :
  length v <> params_size s -> reshape_theta s v = Raise ValueError.
Proof.
  unfold params_size, reshape_theta; fold h k L; intros Hv.
  destruct (Nat.lt_ge_cases (length v) (h * (k + 1))) as [Hlt | Hge].
  - rewrite reshape_fails; auto. rewrite length_firstn. lia.
  - rewrite reshape_ok by (rewrite length_firstn; lia).
    rewrite reshape_fails; auto. rewrite length_skipn. lia.
Qed.

Lemma reshape_theta_shapes (v : vec) (t1 t2 : matrix) :
  reshape_theta s v = Ok (t1, t2) ->
  has_shape h (k + 1) t1 /\ has_shape L (h + 1) t2 /\ flatten t1 t2 = v.
Proof.
  intros H.
  destruct (Nat.eq_dec (length v) (params_size s)) as [Hv | Hv].
  - rewrite (reshape_theta_ok v Hv) in H. injection H as <- <-.
    unfold params_size in Hv; fold h k L in Hv.
    assert (H1 : length (firstn (h * (k + 1)) v) = h * (k + 1))
      by (rewrite length_firstn; lia).
    assert (H2 : length (skipn (h * (k + 1)) v) = L * (h + 1))
      by (rewrite length_skipn; lia).
    split; [| split].
    + apply rows_of_shape; assumption.
    + apply rows_of_shape; assumption.
    + unfold flatten. rewrite !ravel_rows_of by assumption.
      apply firstn_skipn.
  - rewrite (reshape_theta_fails v Hv) in H. discriminate.
Qed.

Lemma reshape_theta_total (v : vec) :
  length v = params_size s ->
  exists t1 t2,
    reshape_theta s v = Ok (t1, t2)
    /\ has_shape h (k + 1) t1 /\ has_shape L (h + 1) t2
    /\ flatten t1 t2 = v.
Proof.
  intros Hv. do 2 eexists. split; [apply reshape_theta_ok, Hv |].
  eapply reshape_theta_shapes. apply reshape_theta_ok, Hv.
Qed.

Lemma reshape_theta_flatten (T1 T2 : matrix) :
  has_shape h (k + 1) T1 -> has_shape L (h + 1) T2 ->
  reshape_theta s (flatten T1 T2) = Ok (T1, T2).
Proof.
  intros H1 H2.
  pose proof (ravel_length _ _ _ H1) as E1.
  pose proof (ravel_length _ _ _ H2) as E2.
  rewrite reshape_theta_ok.
  - unfold flatten.
    rewrite firstn_app, skipn_app, E1, Nat.sub_diag.
    rewrite firstn_all2, skipn_all2 by lia. simpl.
    rewrite app_nil_r, !rows_of_ravel; auto.
  - unfold flatten, params_size; fold h k L. rewrite length_app. lia.
Qed.
End Codec.

(** C4.  The parameter codec is an inverse pair: a flat vector of the
    network's length is recovered by flattening the two matrices
    [reshape_theta] makes of it, and two matrices of the network's shapes are
    recovered by [reshape_theta] from their flattening. *)
Theorem codec_roundtrip (s : NeuralNet) :
  (forall v : vec,
      length v = Net.params_size s ->
      exists t1 t2,
        Net.reshape_theta s v = Ok (t1, t2) /\ Net.flatten t1 t2 = v)
  /\
  (forall T1 T2 : matrix,
      has_shape (hidden_size s) (input_size s + 1) T1 ->
      has_shape (num_labels s) (hidden_size s + 1) T2 ->
      Net.reshape_theta s (Net.flatten T1 T2) = Ok (T1, T2)).
Proof.
  split.
  - intros v Hv. eexists; eexists. split.
    + apply reshape_theta_ok, Hv.
    + eapply reshape_theta_shapes. apply reshape_theta_ok, Hv.
  - apply reshape_theta_flatten.
Qed.

Lemma codec_roundtrip_witness :
  (exists t1 t2,
      Net.reshape_theta Examples.tiny [1; 2; 3; 4]%R = Ok (t1, t2)
      /\ Net.flatten t1 t2 = [1; 2; 3; 4]%R)
  /\ Net.reshape_theta Examples.tiny (Net.flatten [[1; 2]%R] [[3; 4]%R])
     = Ok ([[1; 2]%R], [[3; 4]%R]).
Proof.
  destruct (codec_roundtrip Examples.tiny) as [Hv HT]. split.
  - apply Hv. reflexivity.
  - apply HT; (split; [reflexivity | repeat constructor]).
Defined.

(** ** [fit]: what it returns and what it changes *)

Section FitFacts.
Import Net.

(** [fit], one case per way out. *)
Lemma fit_cases (v : vec) (X y : matrix) (out : bool) (w : World) :
  fit v X y out w =
    match reshape_theta (self w) v with
    | Raise e => (Raise e, w)
    | Ok (t1, t2) =>
        let '(a1, z2, a2, z3, h) := feed_forward X t1 t2 in
        match regularized_cost (self w) t1 t2 y h (length X) with
        | Raise e => (Raise e, w)
        | Ok J =>
            (Ok (J, gradient (self w) t1 t2 a1 z2 a2 h y (length X)),
             if out
             then {| self := self w; sink := sink w ++ [J]; files := files w |}
             else w)
        end
    end.
Proof.
  unfold fit, bind, get_self, lift.
  destruct (reshape_theta (self w) v) as [[t1 t2] | e]; [| reflexivity].
  unfold feed_forward.
  destruct (regularized_cost _ _ _ _ _ _) as [J | e]; [| reflexivity].
  destruct out; reflexivity.
Qed.

Lemma fit_depends_on_instance (v : vec) (X y : matrix) (out : bool)
      (w w' : World) :
  self w' = self w -> fst (fit v X y out w') = fst (fit v X y out w).
Proof.
  intros E. rewrite !fit_cases, E.
  destruct (reshape_theta (self w) v) as [[t1 t2] | e]; [| reflexivity].
  destruct (feed_forward X t1 t2) as [[[[a1 z2] a2] z3] h].
  destruct (regularized_cost _ _ _ _ _ _); reflexivity.
Qed.

(** [fit] assigns no attribute and writes no file; the writer receives the
    cost when [out] is set and the cost was computed. *)
Lemma fit_effects (v : vec) (X y : matrix) (out : bool) (w : World) :
  self (snd (fit v X y out w)) = self w
  /\ files (snd (fit v X y out w)) = files w
  /\ sink (snd (fit v X y out w))
     = sink w ++ match fst (fit v X y out w) with
                 | Ok (J, _) => if out then [J] else []
                 | Raise _ => []
                 end.
Proof.
  rewrite fit_cases.
  destruct (reshape_theta (self w) v) as [[t1 t2] | e].
  - destruct (feed_forward X t1 t2) as [[[[a1 z2] a2] z3] h].
    destruct (regularized_cost _ _ _ _ _ _) as [J | e];
      [destruct out |]; simpl; rewrite ?app_nil_r; auto.
  - simpl. rewrite app_nil_r. auto.
Qed.

Lemma fit_wrong_length (v : vec) (X y : matrix) (out : bool) (w : World) :
  length v <> params_size (self w) ->
  fit v X y out w = (Raise ValueError, w).
Proof.
  intros H. rewrite fit_cases, reshape_theta_fails; auto.
Qed.

Lemma regularized_cost_ok (s : NeuralNet) (t1 t2 y h : matrix) (m : nat) :
  m <> 0 -> exists J, regularized_cost s t1 t2 y h m = Ok J.
Proof.
  intros Hm. destruct m as [|m]; [contradiction |].
  unfold regularized_cost. eexists. reflexivity.
Qed.

(** With parameters of the right length and at least one example, [fit]
    returns. *)
Lemma fit_returns (v : vec) (X y : matrix) (out : bool) (w : World) :
  length v = params_size (self w) -> length X <> 0 ->
  exists t1 t2,
    reshape_theta (self w) v = Ok (t1, t2)
    /\ forall a1 z2 a2 z3 h,
        feed_forward X t1 t2 = (a1, z2, a2, z3, h) ->
        exists J,
          fst (fit v X y out w)
          = Ok (J, gradient (self w) t1 t2 a1 z2 a2 h y (length X)).
Proof.
  intros Hv Hm. rewrite fit_cases, (reshape_theta_ok _ _ Hv).
  do 2 eexists. split; [reflexivity |].
  intros a1 z2 a2 z3 h ->.
  edestruct (regularized_cost_ok (self w)) as [J HJ]; [exact Hm |].
  rewrite HJ. exists J. reflexivity.
Qed.
End FitFacts.

(** C7.  [reshape_theta] succeeds exactly on the vectors of the network's
    length, [hidden_size*(input_size+1) + num_labels*(hidden_size+1)]: on
    such a vector it returns matrices of the shapes
    [(hidden_size, input_size+1)] and [(num_labels, hidden_size+1)] that hold
    all its entries; on any other vector it raises the shape error (numpy's
    [ValueError]), and so does [fit], which has computed and emitted nothing
    at that point. *)
Theorem reshape_theta_checks_length (w : World) (v : vec) :
  (length v = Net.params_size (self w) ->
   exists t1 t2,
     Net.reshape_theta (self w) v = Ok (t1, t2)
     /\ has_shape (hidden_size (self w)) (input_size (self w) + 1) t1
     /\ has_shape (num_labels (self w)) (hidden_size (self w) + 1) t2
     /\ Net.flatten t1 t2 = v)
  /\
  (length v <> Net.params_size (self w) ->
   Net.reshape_theta (self w) v = Raise ValueError
   /\ forall X y out, Net.fit v X y out w = (Raise ValueError, w)).
Proof.
  split; intros Hv.
  - apply reshape_theta_total, Hv.
  - split; [apply reshape_theta_fails, Hv |].
    intros X y out. apply fit_wrong_length, Hv.
Qed.

Lemma reshape_theta_checks_length_witness :
  (exists t1 t2,
      Net.reshape_theta Examples.tiny [1; 2; 3; 4]%R = Ok (t1, t2)
      /\ has_shape 1 2 t1 /\ has_shape 1 2 t2
      /\ Net.flatten t1 t2 = [1; 2; 3; 4]%R)
  /\
  (Net.reshape_theta Examples.tiny [1; 2; 3]%R = Raise ValueError
   /\ forall X y out,
      Net.fit [1; 2; 3]%R X y out Examples.tiny_world
      = (Raise ValueError, Examples.tiny_world)).
Proof.
  split.
  - apply (reshape_theta_checks_length Examples.tiny_world [1; 2; 3; 4]%R).
    reflexivity.
  - apply (reshape_theta_checks_length Examples.tiny_world [1; 2; 3]%R).
    simpl. discriminate.
Defined.

(** C10.  One evaluation of [fit] leaves the instance as it was (the stored
    parameters, [X], [Y], [lam] and the sizes included) and writes no file;
    its only effect is to hand the cost to the writer when [output] is set,
    and what it returns depends on its arguments and the instance only. *)
Theorem fit_frame (v : vec) (X y : matrix) (out : bool) (w : World) :
  self (snd (Net.fit v X y out w)) = self w
  /\ files (snd (Net.fit v X y out w)) = files w
  /\ sink (snd (Net.fit v X y out w))
     = sink w ++ match fst (Net.fit v X y out w) with
                 | Ok (J, _) => if out then [J] else []
                 | Raise _ => []
                 end
  /\ (forall w' : World,
         self w' = self w ->
         fst (Net.fit v X y out w') = fst (Net.fit v X y out w)).
Proof.
  destruct (fit_effects v X y out w) as (Hs & Hf & Hk).
  repeat split; try assumption.
  intros w'. apply fit_depends_on_instance.
Qed.

Lemma fit_frame_witness :
  fst (Net.fit [1; 2; 3; 4]%R [[1%R]] [[1%R]] true
         {| self := Examples.tiny; sink := [Fin 0]; files := [] |})
  = fst (Net.fit [1; 2; 3; 4]%R [[1%R]] [[1%R]] true Examples.tiny_world).
Proof.
  apply (fit_frame [1; 2; 3; 4]%R [[1%R]] [[1%R]] true Examples.tiny_world).
  reflexivity.
Defined.

(** ** [train] and [set_params] *)

Section TrainFacts.
Import Net Trainer.

Lemma run_frame (o : optimizer) (X Y : matrix) (verbose : bool) :
  forall w : World,
    self (snd (run o X Y verbose w)) = self w
    /\ files (snd (run o X Y verbose w)) = files w.
Proof.
  induction o as [x | x k IH]; intros w; simpl.
  - split; reflexivity.
  - unfold bind.
    destruct (fit_effects x X Y verbose w) as (Hs & Hf & _).
    destruct (fit x X Y verbose w) as [[r | e] w1]; simpl in *.
    + destruct (IH r w1) as [Hs' Hf']. split; congruence.
    + split; assumption.
Qed.

Lemma train_cases (minimize : vec -> nat -> optimizer)
      (verbose save : bool) (w : World) :
  train minimize verbose save w =
    let s := self w in
    match run (minimize (params s) (maxiter s)) (X s) (Y s) verbose w with
    | (Ok x, w1) =>
        (Ok x,
         if save
         then {| self := self w1; sink := sink w1;
                 files := (output s, x) :: files w1 |}
         else w1)
    | (Raise e, w1) => (Raise e, w1)
    end.
Proof.
  unfold train, bind, get_self. simpl.
  destruct (run _ _ _ _ w) as [[x | e] w1]; [| reflexivity].
  destruct save; reflexivity.
Qed.

Lemma set_params_stores (p : vec) (w : World) :
  params (self (snd (set_params p w))) = p.
Proof.
  reflexivity.
Qed.
End TrainFacts.

(** C1, as amended.  [train] returns what the optimizer returns and, when
    [save] is set, writes it to the file [self.output]; the instance, its
    stored parameter vector included, is after the call what it was before.
    Storing the result takes a call to [set_params]. *)
Theorem train_returns_without_storing
        (minimize : vec -> nat -> optimizer) (verbose save : bool) (w : World) :
  let s := self w in
  let optimized :=
    Trainer.run (minimize (params s) (maxiter s)) (X s) (Y s) verbose w in
  fst (Trainer.train minimize verbose save w) = fst optimized
  /\ self (snd (Trainer.train minimize verbose save w)) = s
  /\ files (snd (Trainer.train minimize verbose save w))
     = match fst optimized with
       | Ok x => if save then (output s, x) :: files w else files w
       | Raise _ => files w
       end.
Proof.
  intros s optimized. subst optimized s. rewrite train_cases. cbv zeta.
  destruct (run_frame (minimize (params (self w)) (maxiter (self w)))
              (X (self w)) (Y (self w)) verbose w) as [Hs Hf].
  destruct (Trainer.run _ _ _ _ w) as [[x | e] w1]; simpl in *.
  - destruct save; simpl; repeat split; congruence.
  - repeat split; assumption.
Qed.

(** C1, as stated, fails: with an optimizer that answers [[1; 1; 1; 1]],
    [train] returns that vector and the instance still stores
    [[0; 0; 0; 0]]. *)
Lemma train_does_not_store :
  exists x : vec,
    fst (Trainer.train Examples.one_step_minimize false false
           Examples.tiny_world) = Ok x
    /\ params (self (snd (Trainer.train Examples.one_step_minimize false false
                            Examples.tiny_world))) <> x.
Proof.
  exists [1; 1; 1; 1]%R. split; [reflexivity |].
  simpl. intros H. injection H as H. lra.
Qed.

(** ** [predict] *)

(** C6 on the code.  Whatever row is passed, [nn.predict(x)] raises
    [TypeError] before its body runs: the instance and [x] are two
    arguments, and the method declares one. *)
Theorem predict_raises (x : matrix) (w : World) :
  Predict.predict [Array x] w = (Raise TypeError, w).
Proof.
  reflexivity.
Qed.

(** No other way of calling it through the instance returns either. *)
Lemma predict_never_returns (args : list value) (w : World) :
  exists e, Predict.predict args w = (Raise e, w).
Proof.
  destruct args as [| a [| b args]].
  - exists NameError. reflexivity.
  - exists TypeError. reflexivity.
  - exists TypeError. reflexivity.
Qed.

(** The body does compute the output activations once [self] is bound, which
    is what the method would do had it been declared [predict(self, x)]. *)
Lemma predict_body_bound (x t1 t2 : matrix) (w : World) :
  Net.reshape_theta (self w) (params (self w)) = Ok (t1, t2) ->
  Predict.predict_body [("self"%string, Instance); ("x"%string, Array x)] w
  = (Ok (snd (Net.feed_forward x t1 t2)), w).
Proof.
  intros H. unfold Predict.predict_body, bind, lift, get_self. simpl.
  rewrite H. reflexivity.
Qed.

(** ** [split] *)

Section SplitFacts.
Import Split.
Context {A : Type}.

(** The three blocks are consecutive and in input order. *)
Lemma split_partition (input : list A) :
  let '(train_set, cross_set, test_set) := split input in
  train_set ++ cross_set ++ test_set = input.
Proof.
  unfold split, int_round0.
  set (n := length input). set (u := n / 10).
  assert (Hu : u * 10 <= n)
    by (subst u; rewrite Nat.mul_comm; apply Nat.Div0.mul_div_le).
  rewrite slice_0. subst n. rewrite slice_to_end. unfold slice.
  replace (u * 6 + u * 2 - u * 6) with (u * 2) by lia.
  rewrite <- (firstn_skipn (u * 6) input) at 4. f_equal.
  rewrite <- (firstn_skipn (u * 2) (skipn (u * 6) input)) at 2. f_equal.
  rewrite skipn_skipn. f_equal. lia.
Qed.

(** The sizes [split] produces: six and two times the whole tenths of the
    row count, and the rest. *)
Lemma split_sizes (input : list A) :
  sizes (split input)
  = (6 * (length input / 10), 2 * (length input / 10),
     length input - 8 * (length input / 10)).
Proof.
  unfold split, sizes, int_round0.
  set (n := length input). set (u := n / 10).
  assert (Hu : u * 10 <= n)
    by (subst u; rewrite Nat.mul_comm; apply Nat.Div0.mul_div_le).
  rewrite !slice_length by (subst n; lia).
  f_equal; [f_equal |]; lia.
Qed.

(** On a row count that is a multiple of ten the sizes are those the
    specification gives: 60/20/20 for 100 rows, 6/2/2 for 10. *)
Lemma split_sizes_multiple_of_ten (input : list A) (q : nat) :
  length input = 10 * q -> sizes (split input) = spec_sizes (10 * q).
Proof.
  intros H. rewrite split_sizes, H. unfold spec_sizes, round_tenths.
  replace (10 * q / 10) with q by (rewrite Nat.mul_comm, Nat.div_mul; lia).
  replace ((6 * (10 * q) + 5) / 10) with (6 * q).
  2: { apply (Nat.div_unique _ 10 (6 * q) 5); lia. }
  replace ((2 * (10 * q) + 5) / 10) with (2 * q).
  2: { apply (Nat.div_unique _ 10 (2 * q) 5); lia. }
  f_equal. lia.
Qed.
End SplitFacts.

(** C3 on the code.  Fifteen rows are split 6/2/7, in order, where the
    specification's rounding gives 9/3/3: [length/10] is an integer
    division, so the tenths are cut off before they are multiplied. *)
Theorem split_fifteen_rows :
  Split.split Examples.rows15 = (seq 0 6, [6; 7], seq 8 7)
  /\ Split.sizes (Split.split Examples.rows15) = (6, 2, 7)
  /\ Split.spec_sizes 15 = (9, 3, 3).
Proof.
  repeat split.
Qed.

(** ** [get_cost] *)

Section ZipFacts.
Context {A B C : Type}.

Lemma zipWith_ext (f g : A -> B -> C) (l : list A) (l' : list B) :
  (forall a b, In a l -> In b l' -> f a b = g a b) ->
  zipWith f l l' = zipWith g l l'.
Proof.
  revert l'; induction l as [|a l IH]; intros [|b l'] H; simpl; auto.
  f_equal.
  - apply H; now left.
  - apply IH. intros a' b' Ha Hb. apply H; now right.
Qed.

Lemma zipWith_map {A' B' : Type} (f : A -> B -> C) (g : A' -> A)
      (g' : B' -> B) (l : list A') (l' : list B') :
  zipWith f (map g l) (map g' l') = zipWith (fun a b => f (g a) (g' b)) l l'.
Proof.
  revert l'; induction l as [|a l IH]; intros [|b l']; simpl; auto.
  now rewrite IH.
Qed.

Lemma zipWith_Forall (P : C -> Prop) (f : A -> B -> C)
      (l : list A) (l' : list B) :
  (forall a b, In a l -> In b l' -> P (f a b)) -> Forall P (zipWith f l l').
Proof.
  revert l'; induction l as [|a l IH]; intros [|b l'] H; simpl;
    try constructor.
  - apply H; now left.
  - apply IH. intros a' b' Ha Hb. apply H; now right.
Qed.
End ZipFacts.

Lemma zipWith_fuse {A B C D E : Type} (f : C -> D -> E) (g : A -> B -> C)
      (g' : A -> B -> D) (l : list A) (l' : list B) :
  zipWith f (zipWith g l l') (zipWith g' l l')
  = zipWith (fun a b => f (g a b) (g' a b)) l l'.
Proof.
  revert l'; induction l as [|a l IH]; intros [|b l']; simpl; auto.
  now rewrite IH.
Qed.

Section CostFacts.
Import XReal Np Net.
Open Scope R_scope.

Lemma minval_bounds : 0 < minval < 1.
Proof.
  unfold minval. simpl. lra.
Qed.

(** [get_cost] is the sum of the summands, entry by entry. *)
Lemma get_cost_terms (y h : matrix) :
  get_cost y h = xsum (ravel (zipWith (zipWith cost_term) y h)).
Proof.
  unfold get_cost. do 2 f_equal.
  rewrite !zipWith_map, zipWith_fuse.
  apply zipWith_ext. intros r r' _ _.
  rewrite !zipWith_map, zipWith_fuse. reflexivity.
Qed.

(** A prediction of exactly [1] against the label [0]: the second
    logarithm is taken at [0]. *)
Lemma cost_term_0_1 : cost_term 0 1 = PInf.
Proof.
  pose proof minval_bounds as Hm.
  unfold cost_term, clip. rewrite Rmax_left by lra.
  replace (1 - 1) with 0 by lra.
  unfold np_log.
  destruct (Rlt_dec 0 1) as [_ | H]; [| lra].
  destruct (Rlt_dec 0 0) as [H | _]; [lra |].
  destruct (Req_dec_T 0 0) as [_ | H]; [| contradiction].
  simpl. destruct (Rlt_dec 0 (1 - 0)) as [_ | H]; [reflexivity | lra].
Qed.

Lemma cost_term_1_0 : exists r, cost_term 1 0 = Fin r.
Proof.
  pose proof minval_bounds as Hm.
  unfold cost_term, clip. rewrite Rmax_right by lra.
  unfold np_log.
  destruct (Rlt_dec 0 minval) as [_ | H]; [| lra].
  destruct (Rlt_dec 0 (1 - minval)) as [_ | H]; [| lra].
  simpl. eexists. reflexivity.
Qed.

(** A label in [{0, 1}] against a prediction strictly between [0] and [1]:
    the summand is a non-negative real. *)
Lemma cost_term_nonneg (y h : R) :
  y = 0 \/ y = 1 -> 0 < h < 1 -> exists r, cost_term y h = Fin r /\ 0 <= r.
Proof.
  intros Hy Hh. pose proof minval_bounds as Hm.
  assert (Hc : 0 < clip minval h < 1).
  { unfold clip, Rmax. destruct (Rle_dec h minval); lra. }
  assert (L1 : ln (clip minval h) < 0).
  { rewrite <- ln_1. apply ln_increasing; lra. }
  assert (L2 : ln (1 - clip minval h) < 0).
  { rewrite <- ln_1. apply ln_increasing; lra. }
  unfold cost_term, np_log.
  destruct (Rlt_dec 0 (clip minval h)) as [_ | H]; [| lra].
  destruct (Rlt_dec 0 (1 - clip minval h)) as [_ | H]; [| lra].
  simpl. eexists. split; [reflexivity |].
  destruct Hy as [-> | ->]; nra.
Qed.

Lemma xsum_nonneg_from (l : list xreal) (a : R) :
  0 <= a ->
  Forall (fun x => exists r, x = Fin r /\ 0 <= r) l ->
  exists c, fold_left xadd l (Fin a) = Fin c /\ 0 <= c.
Proof.
  revert a; induction l as [|x l IH]; intros a Ha Hl; simpl.
  - exists a. now split.
  - inversion Hl as [| ? ? (r & -> & Hr) Hl']; subst. simpl.
    apply IH; [lra | assumption].
Qed.




Lemma one_hot_row_entries (r : vec) :
  one_hot_row r -> Forall (fun v => v = 0 \/ v = 1) r.
Proof.
  intros (j & _ & Hj). apply Forall_forall. intros v Hv.
  destruct (In_nth _ _ 0 Hv) as (i & Hi & <-).
  rewrite (Hj i Hi). destruct (i =? j)%nat; auto.
Qed.
End CostFacts.

(** C9.  For a one-hot label matrix and a prediction matrix of the same
    shape whose entries lie strictly between 0 and 1, [get_cost] returns a
    real number that is not negative. *)
Theorem get_cost_nonneg (m L : nat) (y h : matrix) :
  has_shape m L y -> has_shape m L h -> one_hot y ->
  Forall (Forall (fun v => 0 < v < 1)%R) h ->
  exists c : R, Net.get_cost y h = Fin c /\ (0 <= c)%R.
Proof.
  intros _ _ Hy Hh. rewrite get_cost_terms.
  apply xsum_nonneg_from; [lra |].
  unfold ravel. apply Forall_concat, zipWith_Forall.
  intros r r' Hr Hr'. apply zipWith_Forall. intros a b Ha Hb.
  unfold one_hot in Hy. rewrite Forall_forall in Hy, Hh.
  apply cost_term_nonneg.
  - pose proof (one_hot_row_entries r (Hy r Hr)) as E.
    rewrite Forall_forall in E. now apply E.
  - specialize (Hh r' Hr'). rewrite Forall_forall in Hh. now apply Hh.
Qed.

Lemma get_cost_nonneg_witness :
  exists c : R,
    Net.get_cost [[0; 1]%R] [[/ 2; / 2]%R] = Fin c /\ (0 <= c)%R.
Proof.
  apply (get_cost_nonneg 1 2).
  - split; [reflexivity | repeat constructor].
  - split; [reflexivity | repeat constructor].
  - constructor; [| constructor]. exists 1. split; [simpl; lia |].
    intros [| [| i]] Hi; simpl in *; try reflexivity; lia.
  - repeat constructor; lra.
Defined.

(** C2 on the code.  With the one-hot labels [[0, 1]] and the predictions
    [[1, 0]], the cost is [+inf]: [get_cost] clips [h] from below and then
    subtracts it from [1], so [1 - h] is [0] at [h = 1] and its logarithm is
    [-inf]. *)
Theorem get_cost_infinite_at_one :
  Net.get_cost [[0; 1]%R] [[1; 0]%R] = PInf.
Proof.
  rewrite get_cost_terms. simpl.
  rewrite cost_term_0_1. destruct cost_term_1_0 as [r ->]. reflexivity.
Qed.

(** ** Matrix facts: shapes, transposition, products *)

Section MatrixFacts.
Import Np.
Open Scope R_scope.

Lemma nth_nil_R (j : nat) : nth j (@nil R) 0 = 0.
Proof.
  now destruct j.
Qed.

Lemma map_nth_seq {A : Type} (l : list A) (d : A) :
  map (fun j => nth j l d) (seq 0 (length l)) = l.
Proof.
  induction l as [|a l IH]; simpl; auto.
  f_equal. rewrite <- seq_shift, map_map. exact IH.
Qed.

Lemma ncols_shape (r c : nat) (M : matrix) :
  has_shape r c M -> (1 <= r)%nat -> ncols M = c.
Proof.
  intros [Hlen Hall] Hr. destruct M as [|row M]; simpl in *; [lia |].
  now inversion Hall.
Qed.

Lemma col_length (j : nat) (M : matrix) : length (col j M) = length M.
Proof.
  apply length_map.
Qed.

Lemma nth_col (i j : nat) (M : matrix) : nth i (col j M) 0 = entry M i j.
Proof.
  unfold col, entry.
  rewrite <- (nth_nil_R j) at 1.
  exact (map_nth (fun r => nth j r 0) M [] i).
Qed.

Lemma transpose_shape (r c : nat) (M : matrix) :
  has_shape r c M -> (1 <= r)%nat -> has_shape c r (transpose M).
Proof.
  intros H Hr. unfold transpose. rewrite (ncols_shape r c M H Hr).
  split.
  - now rewrite length_map, length_seq.
  - apply Forall_forall. intros x Hx. apply in_map_iff in Hx.
    destruct Hx as (j & <- & _). rewrite col_length. apply H.
Qed.

Lemma transpose_involutive (r c : nat) (M : matrix) :
  has_shape r c M -> (1 <= c)%nat -> transpose (transpose M) = M.
Proof.
  intros H Hc. destruct (Nat.eq_dec r 0) as [-> | Hr].
  - destruct H as [Hlen _]. apply length_zero_iff_nil in Hlen. now subst.
  - assert (Hr1 : (1 <= r)%nat) by lia.
    pose proof (transpose_shape r c M H Hr1) as HT.
    unfold transpose at 1. rewrite (ncols_shape c r _ HT Hc).
    transitivity (map (fun i => nth i M []) (seq 0 r)).
    2: { destruct H as [Hlen _]. rewrite <- Hlen. apply map_nth_seq. }
    apply map_ext_in. intros i Hi. apply in_seq in Hi.
    assert (Hrow : length (nth i M []) = c).
    { apply (has_shape_row r c); [assumption | lia]. }
    unfold col, transpose. rewrite (ncols_shape r c M H Hr1), map_map.
    transitivity (map (fun j => nth j (nth i M []) 0) (seq 0 c)).
    + apply map_ext. intros j. apply nth_col.
    + rewrite <- Hrow. apply map_nth_seq.
Qed.

(** [A * B.T] is the product with the transpose of the specification when
    [B] has at least one column. *)
Lemma mmul_transpose (r c : nat) (A B : matrix) :
  has_shape r c B -> (1 <= c)%nat ->
  mmul A (transpose B) = times_transposed A B.
Proof.
  intros H Hc. unfold mmul, times_transposed.
  now rewrite (transpose_involutive r c B H Hc).
Qed.

Lemma times_transposed_shape (A B : matrix) :
  has_shape (length A) (length B) (times_transposed A B).
Proof.
  unfold times_transposed. split.
  - apply length_map.
  - apply Forall_forall. intros x Hx. apply in_map_iff in Hx.
    destruct Hx as (a & <- & _). apply length_map.
Qed.

Lemma times_transposed_has_shape (r c : nat) (A B : matrix) :
  length A = r -> length B = c -> has_shape r c (times_transposed A B).
Proof.
  intros <- <-. apply times_transposed_shape.
Qed.

Lemma nth_map_in {A B : Type} (f : A -> B) (l : list A) (i : nat)
      (d : A) (d' : B) :
  (i < length l)%nat -> nth i (map f l) d' = f (nth i l d).
Proof.
  intros Hi. rewrite (nth_indep _ d' (f d)) by (now rewrite length_map).
  apply map_nth.
Qed.

Lemma times_transposed_entry (A B : matrix) (i j : nat) :
  (i < length A)%nat -> (j < length B)%nat ->
  entry (times_transposed A B) i j = dot (nth i A []) (nth j B []).
Proof.
  intros Hi Hj. unfold entry, times_transposed.
  rewrite (@nth_map_in vec vec _ A i [] []) by assumption.
  now rewrite (@nth_map_in vec R _ B j [] 0).
Qed.

Lemma insert_col0_ones (M : matrix) :
  insert_col0 (ones (length M)) M = map (cons 1) M.
Proof.
  apply zipWith_repeat_l.
Qed.

Lemma map_shape {A B : Type} (f : list A -> list B) (r c c' : nat)
      (M : list (list A)) :
  (forall row, length row = c -> length (f row) = c') ->
  has_shape r c M -> has_shape r c' (map f M).
Proof.
  intros Hf [Hlen Hall]. split.
  - now rewrite length_map.
  - apply Forall_map. eapply Forall_impl; [| exact Hall]. exact Hf.
Qed.
End MatrixFacts.

(** ** [feed_forward] *)

Section ForwardFacts.
Import Np Net.
Open Scope R_scope.

(** The activation of the code is the one the specification writes. *)
Lemma sigmoid_is_sigma (z : R) : sigmoid z = sigma z.
Proof.
  unfold sigmoid, sigma. reflexivity.
Qed.

Lemma rows_sigmoid_sigma (M : matrix) :
  map (map sigmoid) M = map (map sigma) M.
Proof.
  apply map_ext. intros r. apply map_ext, sigmoid_is_sigma.
Qed.

Lemma feed_forward_is_spec (hid k L : nat) (X t1 t2 : matrix) :
  has_shape hid (k + 1) t1 -> has_shape L (hid + 1) t2 ->
  feed_forward X t1 t2 = forward_spec X t1 t2.
Proof.
  intros H1 H2. unfold feed_forward, forward_spec.
  rewrite insert_col0_ones.
  rewrite (mmul_transpose hid (k + 1) _ t1 H1) by lia.
  rewrite (mmul_transpose L (hid + 1) _ t2 H2) by lia.
  assert (E : insert_col0 (ones (length X))
                (map (map sigmoid) (times_transposed (map (cons 1%R) X) t1))
              = map (fun r => 1%R :: map sigma r)
                  (times_transposed (map (cons 1%R) X) t1)).
  { replace (length X)
      with (length (map (map sigmoid)
                      (times_transposed (map (cons 1%R) X) t1)))
      by (unfold times_transposed; now rewrite !length_map).
    rewrite insert_col0_ones, rows_sigmoid_sigma. apply map_map. }
  rewrite E, rows_sigmoid_sigma. reflexivity.
Qed.

Lemma forward_spec_shapes (m k hid L : nat) (X t1 t2 : matrix) :
  has_shape m k X -> has_shape hid (k + 1) t1 -> has_shape L (hid + 1) t2 ->
  let '(a1, z2, a2, z3, h) := forward_spec X t1 t2 in
  has_shape m (k + 1) a1 /\ has_shape m hid z2 /\ has_shape m (hid + 1) a2
  /\ has_shape m L z3 /\ has_shape m L h.
Proof.
  intros HX [Hl1 _] [Hl2 _]. unfold forward_spec.
  set (a1 := map (cons 1%R) X).
  set (z2 := times_transposed a1 t1).
  set (a2 := map (fun r => 1%R :: map sigma r) z2).
  set (z3 := times_transposed a2 t2).
  assert (Ha1 : has_shape m (k + 1) a1).
  { apply (map_shape _ m k); [| exact HX]. intros row <-. simpl. lia. }
  assert (Hz2 : has_shape m hid z2).
  { apply times_transposed_has_shape; [apply Ha1 | exact Hl1]. }
  assert (Ha2 : has_shape m (hid + 1) a2).
  { apply (map_shape _ m hid); [| exact Hz2].
    intros row <-. simpl. rewrite length_map. lia. }
  assert (Hz3 : has_shape m L z3).
  { apply times_transposed_has_shape; [apply Ha2 | exact Hl2]. }
  repeat split; try apply Ha1; try apply Hz2; try apply Ha2; try apply Hz3.
  - rewrite length_map. apply Hz3.
  - apply (map_shape (map sigma) m L L); [| exact Hz3].
    intros row <-. apply length_map.
Qed.

(** The inner product of the code is the sum of the products. *)
Lemma sum_over_succ (n : nat) (f : nat -> R) :
  sum_over (S n) f = f 0%nat + sum_over n (fun c => f (S c)).
Proof.
  unfold sum_over. simpl. now rewrite <- seq_shift, map_map.
Qed.

Lemma dot_sum (u v : vec) (n : nat) :
  length u = n -> length v = n ->
  dot u v = sum_over n (fun c => nth c u 0 * nth c v 0).
Proof.
  revert v n; induction u as [| a u IH]; intros [| b v] n Hu Hv;
    simpl in Hu, Hv; subst n; try discriminate.
  - reflexivity.
  - rewrite sum_over_succ. simpl. rewrite <- (IH v (length u)); auto.
Qed.

Lemma times_transposed_sum (r n p : nat) (A B : matrix) (i j : nat) :
  has_shape r n A -> has_shape p n B -> (i < r)%nat -> (j < p)%nat ->
  entry (times_transposed A B) i j
  = sum_over n (fun c => entry A i c * entry B j c).
Proof.
  intros HA HB Hi Hj.
  assert (LA : length A = r) by exact (proj1 HA).
  assert (LB : length B = p) by exact (proj1 HB).
  rewrite times_transposed_entry by lia.
  apply dot_sum.
  - exact (has_shape_row r n A i HA Hi).
  - exact (has_shape_row p n B j HB Hj).
Qed.

Lemma entry_bias_row (f : vec -> vec) (M : matrix) (i j : nat) :
  (i < length M)%nat ->
  entry (map (fun r => 1 :: f r) M) i j
  = match j with
    | O => 1
    | S c => nth c (f (nth i M [])) 0
    end.
Proof.
  intros Hi. unfold entry. unfold matrix, vec in *.
  rewrite (@nth_map_in (list R) (list R) (fun r => 1 :: f r) M i [] [])
    by assumption.
  now destruct j.
Qed.

Lemma entry_sigma (r c : nat) (M : matrix) (i j : nat) :
  has_shape r c M -> (i < r)%nat -> (j < c)%nat ->
  entry (map (map sigma) M) i j = sigma (entry M i j).
Proof.
  intros HM Hi Hj.
  assert (Lr : length (nth i M []) = c) by exact (has_shape_row r c M i HM Hi).
  assert (Lm : length M = r) by exact (proj1 HM).
  unfold entry. unfold matrix, vec in *.
  rewrite (@nth_map_in (list R) (list R) (map sigma) M i [] []) by lia.
  apply (@nth_map_in R R sigma (nth i M []) j 0 0). lia.
Qed.

(** The five matrices of the specification, entry by entry. *)
Lemma forward_spec_entries (m k hid L : nat) (X t1 t2 : matrix) :
  has_shape m k X -> has_shape hid (k + 1) t1 -> has_shape L (hid + 1) t2 ->
  let '(a1, z2, a2, z3, h) := forward_spec X t1 t2 in
  (forall i, (i < m)%nat ->
     entry a1 i 0 = 1
     /\ forall c, (c < k)%nat -> entry a1 i (S c) = entry X i c)
  /\ (forall i j, (i < m)%nat -> (j < hid)%nat ->
        entry z2 i j
        = sum_over (k + 1) (fun c => entry a1 i c * entry t1 j c))
  /\ (forall i, (i < m)%nat ->
        entry a2 i 0 = 1
        /\ forall c, (c < hid)%nat ->
             entry a2 i (S c) = sigma (entry z2 i c))
  /\ (forall i j, (i < m)%nat -> (j < L)%nat ->
        entry z3 i j
        = sum_over (hid + 1) (fun c => entry a2 i c * entry t2 j c))
  /\ (forall i j, (i < m)%nat -> (j < L)%nat ->
        entry h i j = sigma (entry z3 i j)).
Proof.
  intros HX H1 H2.
  pose proof (forward_spec_shapes m k hid L X t1 t2 HX H1 H2) as Hsh.
  unfold forward_spec in *.
  set (a1 := map (cons 1) X) in *.
  set (z2 := times_transposed a1 t1) in *.
  set (a2 := map (fun r => 1 :: map sigma r) z2) in *.
  set (z3 := times_transposed a2 t2) in *.
  destruct Hsh as (Ha1 & Hz2 & Ha2 & Hz3 & _).
  assert (LX : length X = m) by exact (proj1 HX).
  assert (Lz2 : length z2 = m) by exact (proj1 Hz2).
  split; [| split; [| split; [| split]]].
  - intros i Hi. subst a1. split.
    + exact (entry_bias_row (fun r => r) X i 0 ltac:(lia)).
    + intros c _. exact (entry_bias_row (fun r => r) X i (S c) ltac:(lia)).
  - intros i j Hi Hj. now apply (times_transposed_sum m (k + 1) hid).
  - intros i Hi. subst a2. split.
    + exact (entry_bias_row (map sigma) z2 i 0 ltac:(lia)).
    + intros c Hc.
      assert (Lr : length (nth i z2 []) = hid)
        by exact (has_shape_row m hid z2 i Hz2 Hi).
      transitivity (nth c (map sigma (nth i z2 [])) 0).
      * exact (entry_bias_row (map sigma) z2 i (S c) ltac:(lia)).
      * apply (@nth_map_in R R sigma (nth i z2 []) c 0 0). lia.
  - intros i j Hi Hj. now apply (times_transposed_sum m (hid + 1) L).
  - intros i j Hi Hj. now apply (entry_sigma m L).
Qed.
End ForwardFacts.

(** C8.  On [m >= 1] rows of [k] features and weights of the shapes
    [(hidden, k+1)] and [(num_labels, hidden+1)], [feed_forward] returns the
    quintuple of the specification: [a1] is [X] behind a column of ones,
    [z2 = a1.Theta1^T], [a2] the elementwise [sigma(z) = 1/(1+e^-z)] of [z2]
    behind a column of ones, [z3 = a2.Theta2^T] and [h] the elementwise
    [sigma] of [z3]; [h] has shape [(m, num_labels)].  The formulas are
    stated twice: as the quintuple [forward_spec], and entry by entry. *)
Theorem feed_forward_formulas (m k hid L : nat) (X t1 t2 : matrix) :
  1 <= m ->
  has_shape m k X -> has_shape hid (k + 1) t1 -> has_shape L (hid + 1) t2 ->
  Net.feed_forward X t1 t2 = forward_spec X t1 t2
  /\ let '(a1, z2, a2, z3, h) := Net.feed_forward X t1 t2 in
     (has_shape m (k + 1) a1 /\ has_shape m hid z2
      /\ has_shape m (hid + 1) a2 /\ has_shape m L z3 /\ has_shape m L h)
     /\ (forall i, i < m ->
           entry a1 i 0 = 1%R
           /\ forall c, c < k -> entry a1 i (S c) = entry X i c)
     /\ (forall i j, i < m -> j < hid ->
           entry z2 i j
           = sum_over (k + 1) (fun c => entry a1 i c * entry t1 j c)%R)
     /\ (forall i, i < m ->
           entry a2 i 0 = 1%R
           /\ forall c, c < hid ->
                entry a2 i (S c) = (1 / (1 + exp (- entry z2 i c)))%R)
     /\ (forall i j, i < m -> j < L ->
           entry z3 i j
           = sum_over (hid + 1) (fun c => entry a2 i c * entry t2 j c)%R)
     /\ (forall i j, i < m -> j < L ->
           entry h i j = (1 / (1 + exp (- entry z3 i j)))%R).
Proof.
  intros _ HX H1 H2.
  rewrite (feed_forward_is_spec hid k L X t1 t2 H1 H2).
  split; [reflexivity |].
  pose proof (forward_spec_shapes m k hid L X t1 t2 HX H1 H2) as Hsh.
  pose proof (forward_spec_entries m k hid L X t1 t2 HX H1 H2) as Hen.
  destruct (forward_spec X t1 t2) as [[[[a1 z2] a2] z3] h].
  split; [exact Hsh | exact Hen].
Qed.

Lemma feed_forward_formulas_witness :
  Net.feed_forward [[2%R]] [[1; 3]%R] [[5; 7]%R]
  = forward_spec [[2%R]] [[1; 3]%R] [[5; 7]%R]
  /\ let '(a1, z2, a2, z3, h) :=
       Net.feed_forward [[2%R]] [[1; 3]%R] [[5; 7]%R] in
     (has_shape 1 2 a1 /\ has_shape 1 1 z2
      /\ has_shape 1 2 a2 /\ has_shape 1 1 z3 /\ has_shape 1 1 h)
     /\ (forall i, i < 1 ->
           entry a1 i 0 = 1%R
           /\ forall c, c < 1 -> entry a1 i (S c) = entry [[2%R]] i c)
     /\ (forall i j, i < 1 -> j < 1 ->
           entry z2 i j
           = sum_over (1 + 1)
               (fun c => entry a1 i c * entry [[1; 3]%R] j c)%R)
     /\ (forall i, i < 1 ->
           entry a2 i 0 = 1%R
           /\ forall c, c < 1 ->
                entry a2 i (S c) = (1 / (1 + exp (- entry z2 i c)))%R)
     /\ (forall i j, i < 1 -> j < 1 ->
           entry z3 i j
           = sum_over (1 + 1)
               (fun c => entry a2 i c * entry [[5; 7]%R] j c)%R)
     /\ (forall i j, i < 1 -> j < 1 ->
           entry h i j = (1 / (1 + exp (- entry z3 i j)))%R).
Proof.
  apply (feed_forward_formulas 1 1 1 1);
    [lia | | |]; (split; [reflexivity | repeat constructor]).
Defined.

(** ** The gradient of [fit] *)

Section GradientShapes.
Import Np Net.
Open Scope R_scope.

Lemma zipWith_rows_shape {A B C : Type} (f : list A -> list B -> list C)
      (r c c' c'' : nat) (M : list (list A)) (N : list (list B)) :
  (forall a b, length a = c -> length b = c' -> length (f a b) = c'') ->
  has_shape r c M -> has_shape r c' N -> has_shape r c'' (zipWith f M N).
Proof.
  intros Hf [HlM HaM] [HlN HaN]. split.
  - rewrite zipWith_length. lia.
  - apply zipWith_Forall. intros a b Ha Hb.
    rewrite Forall_forall in HaM, HaN. apply Hf; auto.
Qed.

Lemma zipWith_entries_shape (f : R -> R -> R) (r c : nat) (M N : matrix) :
  has_shape r c M -> has_shape r c N ->
  has_shape r c (zipWith (zipWith f) M N).
Proof.
  apply zipWith_rows_shape. intros a b Ha Hb. rewrite zipWith_length. lia.
Qed.

Lemma entries_map_shape (f : R -> R) (r c : nat) (M : matrix) :
  has_shape r c M -> has_shape r c (map (map f) M).
Proof.
  apply map_shape. intros row <-. apply length_map.
Qed.

Lemma cols_from1_shape (r c : nat) (M : matrix) :
  has_shape r c M -> has_shape r (c - 1) (cols_from1 M).
Proof.
  apply map_shape. intros row <-. destruct row; simpl; lia.
Qed.

Lemma cols_from1_shape_succ (r c : nat) (M : matrix) :
  has_shape r (c + 1) M -> has_shape r c (cols_from1 M).
Proof.
  intros H. apply cols_from1_shape in H.
  now replace (c + 1 - 1)%nat with c in H by lia.
Qed.

Lemma row_shape (m c t : nat) (M : matrix) :
  has_shape m c M -> (t < m)%nat -> has_shape 1 c (row t M).
Proof.
  intros H Ht. split; [reflexivity |].
  constructor; [| constructor]. now apply (has_shape_row m c).
Qed.

Lemma mmul_shape (r n c : nat) (A B : matrix) :
  length A = r -> has_shape n c B -> (1 <= n)%nat ->
  has_shape r c (mmul A B).
Proof.
  intros HA HB Hn. unfold mmul. split.
  - now rewrite length_map.
  - apply Forall_forall. intros x Hx. apply in_map_iff in Hx.
    destruct Hx as (a & <- & _). rewrite length_map.
    apply (transpose_shape n c B HB Hn).
Qed.

Section Step.
Variables m k hid L : nat.
Variables theta2 a1 z2 a2 h y : matrix.
Hypothesis HL : (1 <= L)%nat.
Hypothesis Htheta2 : has_shape L (hid + 1) theta2.
Hypothesis Ha1 : has_shape m (k + 1) a1.
Hypothesis Hz2 : has_shape m hid z2.
Hypothesis Ha2 : has_shape m (hid + 1) a2.
Hypothesis Hh : has_shape m L h.
Hypothesis Hy : has_shape m L y.

Lemma backprop_step_shape (acc : matrix * matrix) (t : nat) :
  (t < m)%nat -> accumulators_shaped hid k L acc ->
  accumulators_shaped hid k L (backprop_step theta2 a1 z2 a2 h y acc t).
Proof.
  intros Ht [H1 H2]. destruct acc as [delta1 delta2]. simpl in H1, H2.
  unfold backprop_step.
  assert (Hd3 : has_shape 1 L (msub (row t h) (row t y))).
  { apply zipWith_entries_shape; now apply (row_shape m). }
  assert (HTd3 : has_shape L 1 (transpose (msub (row t h) (row t y)))).
  { apply transpose_shape; [exact Hd3 | lia]. }
  split; cbn [fst snd].
  - apply zipWith_entries_shape; [exact H1 |].
    apply (mmul_shape hid 1 (k + 1)); [| now apply (row_shape m) | lia].
    apply (transpose_shape 1 hid); [| lia].
    apply cols_from1_shape_succ, zipWith_entries_shape.
    + apply (transpose_shape (hid + 1) 1); [| lia].
      apply (mmul_shape (hid + 1) L 1); [| exact HTd3 | exact HL].
      apply (transpose_shape L (hid + 1)); assumption.
    + apply entries_map_shape. split; [reflexivity |].
      constructor; [| constructor]. simpl.
      rewrite app_nil_r, Nat.add_1_r. f_equal.
      exact (has_shape_row m hid z2 t Hz2 Ht).
  - apply zipWith_entries_shape; [exact H2 |].
    apply (mmul_shape L 1 (hid + 1)); [apply HTd3 | | lia].
    now apply (row_shape m).
Qed.

Lemma backprop_shape (acc : matrix * matrix) :
  accumulators_shaped hid k L acc ->
  accumulators_shaped hid k L (backprop theta2 a1 z2 a2 h y m acc).
Proof.
  unfold backprop.
  assert (G : forall (l : list nat) (acc : matrix * matrix),
             (forall t, In t l -> (t < m)%nat) ->
             accumulators_shaped hid k L acc ->
             accumulators_shaped hid k L
               (fold_left (backprop_step theta2 a1 z2 a2 h y) l acc)).
  { induction l as [|t l IH]; intros acc' Hl Hacc; simpl; [assumption |].
    apply IH.
    - intros t' Ht'. apply Hl. now right.
    - apply backprop_step_shape; [apply Hl; now left | assumption]. }
  apply G. intros t Ht. apply in_seq in Ht. lia.
Qed.
End Step.
End GradientShapes.

Section Regularization.
Import Np Net.
Open Scope R_scope.

Lemma regularize_shape (lam : R) (m r c : nat) (delta theta : matrix) :
  has_shape r (c + 1) delta -> has_shape r (c + 1) theta ->
  has_shape r (c + 1) (regularize lam m delta theta).
Proof.
  intros Hd Ht. unfold regularize, set_cols_from1.
  apply (zipWith_rows_shape _ r (c + 1) c); [| exact Hd |].
  - intros a b Ha Hb. rewrite length_app, length_firstn. lia.
  - apply zipWith_entries_shape; [now apply cols_from1_shape_succ |].
    unfold mdiv, mscale. now apply entries_map_shape, entries_map_shape,
                           cols_from1_shape_succ.
Qed.

(** Column 0 is kept; the other entries get [theta * lam / m] added. *)
Lemma regularize_entry (lam : R) (m r c : nat) (delta theta : matrix)
      (i j : nat) :
  has_shape r (c + 1) delta -> has_shape r (c + 1) theta ->
  (i < r)%nat -> (j < c + 1)%nat ->
  entry (regularize lam m delta theta) i j
  = match j with
    | O => entry delta i 0
    | S _ => entry delta i j + entry theta i j * lam / INR m
    end.
Proof.
  intros Hd Ht Hi Hj.
  pose proof (has_shape_row r (c + 1) delta i Hd Hi) as Ld.
  pose proof (has_shape_row r (c + 1) theta i Ht Hi) as Lt.
  destruct Hd as [Hld _], Ht as [Hlt _].
  unfold entry, regularize, set_cols_from1, madd, mdiv, mscale, cols_from1.
  unfold matrix, vec in *.
  rewrite (@zipWith_nth (list R) (list R) (list R) _ _ _ i [] [] [])
    by (rewrite ?zipWith_length, ?length_map; lia).
  rewrite (@zipWith_nth (list R) (list R) (list R) _ _ _ i [] [] [])
    by (rewrite ?length_map; lia).
  rewrite (@nth_map_in (list R) (list R) _ delta i [] []) by lia.
  rewrite !map_map.
  rewrite (@nth_map_in (list R) (list R) _ theta i [] []) by lia.
  destruct (nth i delta []) as [| d0 dt]; [simpl in Ld; lia |].
  destruct (nth i theta []) as [| t0 tt]; [simpl in Lt; lia |].
  simpl in Ld, Lt. simpl. destruct j as [| j]; [reflexivity |].
  rewrite (zipWith_nth _ _ _ j 0 0 0) by (rewrite ?length_map; lia).
  rewrite map_map, (nth_map_in _ tt j 0 0) by lia. reflexivity.
Qed.

Lemma mdiv_shape (m r c : nat) (M : matrix) :
  has_shape r c M -> has_shape r c (mdiv M m).
Proof.
  apply entries_map_shape.
Qed.

Lemma zeros_like_shape (r c : nat) (M : matrix) :
  has_shape r c M -> has_shape r c (zeros_like M).
Proof.
  apply entries_map_shape.
Qed.

(** The gradient is the flattening of two regularised matrices; the
    matrices that are regularised do not depend on [lam]. *)
Lemma gradient_matrices (m k hid L : nat)
      (t1 t2 a1 z2 a2 h y : matrix) :
  (1 <= L)%nat ->
  has_shape hid (k + 1) t1 -> has_shape L (hid + 1) t2 ->
  has_shape m (k + 1) a1 -> has_shape m hid z2 ->
  has_shape m (hid + 1) a2 -> has_shape m L h -> has_shape m L y ->
  exists D1 D2,
    has_shape hid (k + 1) D1 /\ has_shape L (hid + 1) D2
    /\ forall s : NeuralNet,
        gradient s t1 t2 a1 z2 a2 h y m
        = flatten (regularize (lam s) m D1 t1) (regularize (lam s) m D2 t2).
Proof.
  intros HL H1 H2 Ha1 Hz2 Ha2 Hh Hy.
  assert (Hacc : accumulators_shaped hid k L
                   (backprop t2 a1 z2 a2 h y m
                      (zeros_like t1, zeros_like t2))).
  { apply (backprop_shape m k hid L); auto.
    split; simpl; now apply zeros_like_shape. }
  destruct (backprop t2 a1 z2 a2 h y m (zeros_like t1, zeros_like t2))
    as [delta1 delta2] eqn:E.
  destruct Hacc as [Hd1 Hd2]. simpl in Hd1, Hd2.
  exists (mdiv delta1 m), (mdiv delta2 m).
  split; [now apply mdiv_shape |]. split; [now apply mdiv_shape |].
  intros s. unfold gradient. rewrite E. reflexivity.
Qed.
End Regularization.

Section RegularizationOfFit.
Import Np Net.
Open Scope R_scope.

Lemma with_lam_same (w : World) : self (with_lam (lam (self w)) w) = self w.
Proof.
  destruct w as [[] ? ?]. reflexivity.
Qed.

Lemma one_hot_has_label (m L : nat) (y : matrix) :
  (1 <= m)%nat -> has_shape m L y -> one_hot y -> (1 <= L)%nat.
Proof.
  intros Hm [Hlen Hall] Hoh. destruct y as [| r y]; [simpl in Hlen; lia |].
  inversion Hall as [| ? ? Hr _]; subst.
  inversion Hoh as [| ? ? (j & Hj & _) _]; subst. lia.
Qed.

(** [fit] on well-shaped arguments: the cost it returns and the two
    matrices whose flattening is the gradient. *)
Lemma fit_gradient (w : World) (v : vec) (X y : matrix) (out : bool)
      (m : nat) :
  (1 <= m)%nat ->
  length v = params_size (self w) ->
  has_shape m (input_size (self w)) X ->
  has_shape m (num_labels (self w)) y ->
  (1 <= num_labels (self w))%nat ->
  exists t1 t2 D1 D2,
    reshape_theta (self w) v = Ok (t1, t2)
    /\ has_shape (hidden_size (self w)) (input_size (self w) + 1) t1
    /\ has_shape (num_labels (self w)) (hidden_size (self w) + 1) t2
    /\ has_shape (hidden_size (self w)) (input_size (self w) + 1) D1
    /\ has_shape (num_labels (self w)) (hidden_size (self w) + 1) D2
    /\ forall l : R,
        exists J,
          fst (fit v X y out (with_lam l w))
          = Ok (J, flatten (regularize l m D1 t1) (regularize l m D2 t2)).
Proof.
  intros Hm Hv HX Hy HL.
  destruct (reshape_theta_total (self w) v Hv) as (t1 & t2 & Hr & H1 & H2 & _).
  pose proof (forward_spec_shapes m _ _ _ X t1 t2 HX H1 H2) as Hsh.
  rewrite <- (feed_forward_is_spec _ _ _ X t1 t2 H1 H2) in Hsh.
  destruct (feed_forward X t1 t2) as [[[[a1 z2] a2] z3] h] eqn:Eff.
  destruct Hsh as (Ha1 & Hz2 & Ha2 & _ & Hh).
  destruct (gradient_matrices m _ _ _ t1 t2 a1 z2 a2 h y
              HL H1 H2 Ha1 Hz2 Ha2 Hh Hy) as (D1 & D2 & HD1 & HD2 & Hg).
  exists t1, t2, D1, D2. repeat (split; [assumption |]).
  intros l. rewrite fit_cases.
  change (reshape_theta (self (with_lam l w)) v)
    with (reshape_theta (self w) v).
  rewrite Hr, Eff.
  destruct HX as [HlX _]. unfold matrix, vec in *. rewrite HlX.
  destruct m as [| m']; [lia |].
  unfold regularized_cost. eexists. simpl fst. f_equal. f_equal.
  apply (Hg (self (with_lam l w))).
Qed.
End RegularizationOfFit.

(** C5.  Regularisation leaves the bias columns alone.  On parameters of
    the right length, [m >= 1] examples and one-hot labels, the gradient
    [fit] returns with [lam > 0] and the one it returns with [lam = 0],
    both read back as matrices, agree on column 0 of either weight matrix,
    and differ by [(lam / m) * Theta] on every other column. *)
Theorem regularization_spares_bias
        (w : World) (v : vec) (X y : matrix) (out : bool) (m : nat) :
  let s := self w in
  1 <= m ->
  length v = Net.params_size s ->
  has_shape m (input_size s) X -> has_shape m (num_labels s) y ->
  one_hot y -> (0 < lam s)%R ->
  exists J g J0 g0 t1 t2 G1 G2 G1_0 G2_0,
    fst (Net.fit v X y out w) = Ok (J, g)
    /\ fst (Net.fit v X y out (with_lam 0 w)) = Ok (J0, g0)
    /\ Net.reshape_theta s v = Ok (t1, t2)
    /\ Net.reshape_theta s g = Ok (G1, G2)
    /\ Net.reshape_theta s g0 = Ok (G1_0, G2_0)
    /\ (forall i j, i < hidden_size s -> j < input_size s + 1 ->
          entry G1 i j
          = match j with
            | 0 => entry G1_0 i 0
            | S _ => entry G1_0 i j + lam s / INR m * entry t1 i j
            end%R)
    /\ (forall i j, i < num_labels s -> j < hidden_size s + 1 ->
          entry G2 i j
          = match j with
            | 0 => entry G2_0 i 0
            | S _ => entry G2_0 i j + lam s / INR m * entry t2 i j
            end%R).
Proof.
  intros s Hm Hv HX Hy Hoh _.
  pose proof (one_hot_has_label m _ y Hm Hy Hoh) as HL.
  destruct (fit_gradient w v X y out m Hm Hv HX Hy HL)
    as (t1 & t2 & D1 & D2 & Hr & H1 & H2 & HD1 & HD2 & Hfit).
  fold s in Hr, H1, H2, HD1, HD2.
  destruct (Hfit (lam s)) as [J HJ]. destruct (Hfit 0%R) as [J0 HJ0].
  assert (HJ' : fst (Net.fit v X y out w)
                = Ok (J, Net.flatten (Net.regularize (lam s) m D1 t1)
                           (Net.regularize (lam s) m D2 t2))).
  { rewrite <- HJ. symmetry. apply fit_depends_on_instance, with_lam_same. }
  exists J, (Net.flatten (Net.regularize (lam s) m D1 t1)
               (Net.regularize (lam s) m D2 t2)),
    J0, (Net.flatten (Net.regularize 0 m D1 t1) (Net.regularize 0 m D2 t2)),
    t1, t2,
    (Net.regularize (lam s) m D1 t1), (Net.regularize (lam s) m D2 t2),
    (Net.regularize 0 m D1 t1), (Net.regularize 0 m D2 t2).
  split; [exact HJ' |]. split; [exact HJ0 |]. split; [exact Hr |].
  split; [apply reshape_theta_flatten; now apply regularize_shape |].
  split; [apply reshape_theta_flatten; now apply regularize_shape |].
  split; intros i j Hi Hj.
  - rewrite !(regularize_entry _ m (hidden_size s) (input_size s))
      by (assumption || lia).
    destruct j; [reflexivity |]. unfold Rdiv. ring.
  - rewrite !(regularize_entry _ m (num_labels s) (hidden_size s))
      by (assumption || lia).
    destruct j; [reflexivity |]. unfold Rdiv. ring.
Qed.

Lemma regularization_spares_bias_witness :
  exists J g J0 g0 t1 t2 G1 G2 G1_0 G2_0,
    fst (Net.fit [1; 2; 3; 4]%R [[1%R]] [[1%R]] false Examples.tiny_world)
    = Ok (J, g)
    /\ fst (Net.fit [1; 2; 3; 4]%R [[1%R]] [[1%R]] false
              (with_lam 0 Examples.tiny_world)) = Ok (J0, g0)
    /\ Net.reshape_theta Examples.tiny [1; 2; 3; 4]%R = Ok (t1, t2)
    /\ Net.reshape_theta Examples.tiny g = Ok (G1, G2)
    /\ Net.reshape_theta Examples.tiny g0 = Ok (G1_0, G2_0)
    /\ (forall i j, i < 1 -> j < 1 + 1 ->
          entry G1 i j
          = match j with
            | 0 => entry G1_0 i 0
            | S _ => entry G1_0 i j + 1 / INR 1 * entry t1 i j
            end%R)
    /\ (forall i j, i < 1 -> j < 1 + 1 ->
          entry G2 i j
          = match j with
            | 0 => entry G2_0 i 0
            | S _ => entry G2_0 i j + 1 / INR 1 * entry t2 i j
            end%R).
Proof.
  apply (regularization_spares_bias Examples.tiny_world
           [1; 2; 3; 4]%R [[1%R]] [[1%R]] false 1).
  - lia.
  - reflexivity.
  - split; [reflexivity | repeat constructor].
  - split; [reflexivity | repeat constructor].
  - constructor; [| constructor]. exists 0. split; [simpl; lia |].
    intros [| i] Hi; simpl in *; [reflexivity | lia].
  - simpl. lra.
Defined.

(** * Further properties of the code *)

(** ** [generate_params] *)

Section InitFacts.
Import Net Init.
Open Scope R_scope.

Lemma generate_params_length (s : NeuralNet) (rng : nat -> R) :
  length (generate_params s rng) = params_size s.
Proof.
  unfold generate_params, random_sample.
  now rewrite !length_map, length_seq.
Qed.

Lemma generate_params_bounds (s : NeuralNet) (rng : nat -> R) :
  (forall i, 0 <= rng i < 1) ->
  Forall (fun p => - 0.125 <= p < 0.125) (generate_params s rng).
Proof.
  intros Hrng. unfold generate_params, random_sample.
  apply Forall_map, Forall_map, Forall_forall. intros i _.
  specialize (Hrng i). lra.
Qed.
End InitFacts.

(** X1.  The vector [generate_params] draws is one [reshape_theta] accepts
    for the same instance, and each of its entries lies in
    [[-0.125, 0.125)]. *)
Theorem generate_params_fits (s : NeuralNet) (rng : nat -> R) :
  (forall i, 0 <= rng i < 1)%R ->
  (exists t1 t2,
      Net.reshape_theta s (Init.generate_params s rng) = Ok (t1, t2)
      /\ has_shape (hidden_size s) (input_size s + 1) t1
      /\ has_shape (num_labels s) (hidden_size s + 1) t2)
  /\ Forall (fun p => - 0.125 <= p < 0.125)%R (Init.generate_params s rng).
Proof.
  intros Hrng. split; [| now apply generate_params_bounds].
  destruct (reshape_theta_total s _ (generate_params_length s rng))
    as (t1 & t2 & H & H1 & H2 & _).
  now exists t1, t2.
Qed.

Lemma generate_params_fits_witness :
  (exists t1 t2,
      Net.reshape_theta Examples.tiny
        (Init.generate_params Examples.tiny (fun _ => 0.5%R)) = Ok (t1, t2)
      /\ has_shape 1 2 t1 /\ has_shape 1 2 t2)
  /\ Forall (fun p => - 0.125 <= p < 0.125)%R
       (Init.generate_params Examples.tiny (fun _ => 0.5%R)).
Proof.
  apply (generate_params_fits Examples.tiny (fun _ => 0.5%R)).
  intros _. lra.
Defined.

(** ** [sigmoid] and [sigmoid_gradient]: the range *)

Section SigmoidFacts.
Import Np Net.
Open Scope R_scope.

Lemma sigmoid_range (z : R) : 0 <= sigmoid z <= 1.
Proof.
  unfold sigmoid. pose proof (exp_pos (- z)) as He.
  assert (Hd : 0 < 1 + exp (- z)) by lra.
  split.
  - apply Rlt_le, Rdiv_lt_0_compat; lra.
  - apply (Rmult_le_reg_r (1 + exp (- z))); [exact Hd |].
    unfold Rdiv. rewrite Rmult_assoc, Rinv_l by lra. lra.
Qed.

Lemma sigmoid_gradient_range (z : R) : 0 <= sigmoid_gradient z <= / 4.
Proof.
  unfold sigmoid_gradient. pose proof (sigmoid_range z) as H.
  split; [apply Rmult_le_pos; lra |].
  pose proof (pow2_ge_0 (sigmoid z - / 2)) as Hsq. nra.
Qed.
End SigmoidFacts.

(** X2.  [sigmoid] takes its values between 0 and 1, and [sigmoid_gradient]
    between 0 and 1/4, the bounds included.  The bounds are stated closed
    because double precision reaches them: [1 + np.exp(-z)] rounds to [1]
    from [z] near 37 on, where [sigmoid] returns exactly [1.0] and
    [sigmoid_gradient] exactly [0.0], and [np.exp(-z)] overflows to [inf]
    for [z] below -709, where both return exactly [0.0]. *)
Theorem sigmoid_bounds (z : R) :
  (0 <= Net.sigmoid z <= 1)%R /\ (0 <= Net.sigmoid_gradient z <= / 4)%R.
Proof.
  split; [apply sigmoid_range | apply sigmoid_gradient_range].
Qed.

(** ** [fit]: the gradient and the empty input *)

Section FitMoreFacts.
Import XReal Np Net.
Open Scope R_scope.

Lemma fit_silent (v : vec) (X y : matrix) (w : World) :
  snd (fit v X y false w) = w.
Proof.
  rewrite fit_cases.
  destruct (reshape_theta (self w) v) as [[t1 t2] | e]; [| reflexivity].
  destruct (feed_forward X t1 t2) as [[[[a1 z2] a2] z3] h].
  destruct (regularized_cost _ _ _ _ _ _); reflexivity.
Qed.
End FitMoreFacts.

(** X5.  On well-shaped arguments the gradient [fit] returns has the length
    of the parameter vector it was given. *)
Theorem fit_gradient_length
        (w : World) (v : vec) (X y : matrix) (out : bool) (m : nat) :
  1 <= m ->
  length v = Net.params_size (self w) ->
  has_shape m (input_size (self w)) X ->
  has_shape m (num_labels (self w)) y ->
  1 <= num_labels (self w) ->
  exists (J : xreal) (g : vec),
    fst (Net.fit v X y out w) = Ok (J, g) /\ length g = length v.
Proof.
  intros Hm Hv HX Hy HL.
  destruct (fit_gradient w v X y out m Hm Hv HX Hy HL)
    as (t1 & t2 & D1 & D2 & _ & H1 & H2 & HD1 & HD2 & Hfit).
  destruct (Hfit (lam (self w))) as [J HJ].
  rewrite (fit_depends_on_instance v X y out w _ (with_lam_same w)) in HJ.
  do 2 eexists. split; [exact HJ |].
  unfold Net.flatten. rewrite length_app.
  rewrite (ravel_length (hidden_size (self w)) (input_size (self w) + 1)),
    (ravel_length (num_labels (self w)) (hidden_size (self w) + 1))
    by (now apply regularize_shape).
  now rewrite Hv.
Qed.

Lemma fit_gradient_length_witness :
  exists (J : xreal) (g : vec),
    fst (Net.fit [1; 2; 3; 4]%R [[1%R]] [[1%R]] true Examples.tiny_world)
    = Ok (J, g) /\ length g = length [1; 2; 3; 4]%R.
Proof.
  apply (fit_gradient_length Examples.tiny_world
           [1; 2; 3; 4]%R [[1%R]] [[1%R]] true 1).
  - lia.
  - reflexivity.
  - split; [reflexivity | repeat constructor].
  - split; [reflexivity | repeat constructor].
  - simpl. lia.
Defined.

(** X6.  On an input of zero rows and the instance's width, with a label
    matrix of zero rows and the instance's number of labels, and parameters
    of the right length, [fit] raises [ZeroDivisionError] (from
    [float(self.lam) / (2 * m)] on line 200) before anything has reached
    the writer. *)
Theorem fit_without_examples
        (w : World) (v : vec) (X y : matrix) (out : bool) :
  length v = Net.params_size (self w) ->
  has_shape 0 (input_size (self w)) X ->
  has_shape 0 (num_labels (self w)) y ->
  Net.fit v X y out w = (Raise ZeroDivisionError, w).
Proof.
  intros Hv [HX _] _.
  destruct X as [| row X]; [| discriminate HX].
  destruct (reshape_theta_total (self w) v Hv) as (t1 & t2 & Hr & _).
  rewrite fit_cases, Hr. reflexivity.
Qed.

Lemma fit_without_examples_witness :
  Net.fit [1; 2; 3; 4]%R [] [] true Examples.tiny_world
  = (Raise ZeroDivisionError, Examples.tiny_world).
Proof.
  apply (fit_without_examples Examples.tiny_world [1; 2; 3; 4]%R [] [] true).
  - reflexivity.
  - split; [reflexivity | constructor].
  - split; [reflexivity | constructor].
Defined.

(** ** [train]: what reaches the writer, and failure *)

Section TrainMoreFacts.
Import Net Trainer.

Lemma run_silent (o : optimizer) (X Y : matrix) :
  forall w : World, snd (run o X Y false w) = w.
Proof.
  induction o as [x | x k IH]; intros w; simpl; [reflexivity |].
  unfold bind. pose proof (fit_silent x X Y w) as Hs.
  destruct (fit x X Y false w) as [[r | e] w1]; simpl in Hs; subst w1.
  - apply IH.
  - reflexivity.
Qed.

Lemma run_sink_grows (o : optimizer) (X Y : matrix) (verbose : bool) :
  forall w : World,
  exists costs, sink (snd (run o X Y verbose w)) = sink w ++ costs.
Proof.
  induction o as [x | x k IH]; intros w; simpl.
  - exists []. now rewrite app_nil_r.
  - unfold bind. destruct (fit_effects x X Y verbose w) as (_ & _ & Hk).
    destruct (fit x X Y verbose w) as [[r | e] w1]; simpl in *.
    + destruct (IH r w1) as [costs Hc]. rewrite Hc, Hk, <- app_assoc.
      eexists. reflexivity.
    + eexists. exact Hk.
Qed.
End TrainMoreFacts.

(** X7.  [train] only ever appends to what the writer has received, and
    with [verbose=False] it appends nothing; with [save=False] as well, the
    call changes nothing at all. *)
Theorem train_writer_effects
        (minimize : vec -> nat -> optimizer) (verbose save : bool)
        (w : World) :
  (exists costs,
      sink (snd (Trainer.train minimize verbose save w)) = sink w ++ costs)
  /\ sink (snd (Trainer.train minimize false save w)) = sink w
  /\ snd (Trainer.train minimize false false w) = w.
Proof.
  split; [| split].
  - rewrite train_cases. cbv zeta.
    destruct (run_sink_grows
                (minimize (params (self w)) (maxiter (self w)))
                (X (self w)) (Y (self w)) verbose w) as [costs Hc].
    destruct (Trainer.run _ _ _ _ w) as [[x | e] w1]; simpl in *;
      [destruct save |]; exists costs; exact Hc.
  - rewrite train_cases. cbv zeta.
    pose proof (run_silent (minimize (params (self w)) (maxiter (self w)))
                  (X (self w)) (Y (self w)) w) as Hs.
    destruct (Trainer.run _ _ _ _ w) as [[x | e] w1]; simpl in *; subst w1;
      [destruct save |]; reflexivity.
  - rewrite train_cases. cbv zeta.
    pose proof (run_silent (minimize (params (self w)) (maxiter (self w)))
                  (X (self w)) (Y (self w)) w) as Hs.
    destruct (Trainer.run _ _ _ _ w) as [[x | e] w1]; simpl in *; subst w1;
      reflexivity.
Qed.

(** X8.  When the optimizer starts by evaluating the objective at a vector
    whose length does not fit the network, [train] raises the shape error;
    nothing is written to the writer or to the file, even with [save]. *)
Theorem train_rejects_misfit
        (minimize : vec -> nat -> optimizer) (verbose save : bool)
        (w : World) (x : vec) (k : xreal * vec -> optimizer) :
  minimize (params (self w)) (maxiter (self w)) = Evaluate x k ->
  length x <> Net.params_size (self w) ->
  Trainer.train minimize verbose save w = (Raise ValueError, w).
Proof.
  intros Hmin Hx. rewrite train_cases. cbv zeta. rewrite Hmin. simpl.
  unfold bind. now rewrite (fit_wrong_length x _ _ verbose w Hx).
Qed.

Lemma train_rejects_misfit_witness :
  Trainer.train Examples.one_step_minimize true true
    MoreExamples.misfit_world
  = (Raise ValueError, MoreExamples.misfit_world).
Proof.
  apply (train_rejects_misfit Examples.one_step_minimize true true
           MoreExamples.misfit_world [0; 0; 0]%R
           (fun _ => Converged [1; 1; 1; 1]%R)).
  - reflexivity.
  - simpl. discriminate.
Defined.

(** X9.  [set_params] applied to what [train] returned makes the result the
    stored parameter vector and leaves the other attributes alone. *)
Theorem train_then_set_params
        (minimize : vec -> nat -> optimizer) (verbose save : bool)
        (w : World) (x : vec) :
  fst (Trainer.train minimize verbose save w) = Ok x ->
  let s' :=
    self (snd ((r <- Trainer.train minimize verbose save ;;
                Net.set_params r) w)) in
  params s' = x
  /\ X s' = X (self w) /\ Y s' = Y (self w)
  /\ num_labels s' = num_labels (self w)
  /\ input_size s' = input_size (self w)
  /\ hidden_size s' = hidden_size (self w)
  /\ lam s' = lam (self w) /\ output s' = output (self w)
  /\ maxiter s' = maxiter (self w).
Proof.
  intros Hx.
  pose proof (train_cases minimize verbose save w) as Hc. cbv zeta in Hc.
  destruct (run_frame (minimize (params (self w)) (maxiter (self w)))
              (X (self w)) (Y (self w)) verbose w) as [Hs _].
  unfold bind. rewrite Hc in *.
  destruct (Trainer.run _ _ _ _ w) as [[r | e] w1]; simpl in *;
    [| discriminate].
  injection Hx as ->.
  destruct save; simpl; rewrite Hs; repeat split; reflexivity.
Qed.

Lemma train_then_set_params_witness :
  let s' :=
    self (snd ((r <- Trainer.train Examples.one_step_minimize false false ;;
                Net.set_params r) Examples.tiny_world)) in
  params s' = [1; 1; 1; 1]%R
  /\ X s' = X Examples.tiny /\ Y s' = Y Examples.tiny
  /\ num_labels s' = num_labels Examples.tiny
  /\ input_size s' = input_size Examples.tiny
  /\ hidden_size s' = hidden_size Examples.tiny
  /\ lam s' = lam Examples.tiny /\ output s' = output Examples.tiny
  /\ maxiter s' = maxiter Examples.tiny.
Proof.
  apply (train_then_set_params Examples.one_step_minimize false false
           Examples.tiny_world [1; 1; 1; 1]%R).
  reflexivity.
Defined.

(** ** [split]: the blocks *)

(** X10.  [split] cuts the rows into three consecutive blocks, in input
    order: their concatenation is the input, whatever its length. *)
Theorem split_blocks_cover_input {A : Type} (input : list A) :
  let '(train_set, cross_set, test_set) := Split.split input in
  train_set ++ cross_set ++ test_set = input.
Proof.
  apply split_partition.
Qed.

(** X11.  With [u] the whole tenths of the row count [n], the blocks have
    [6u], [2u] and [n - 8u] rows: no row is lost, and the third block takes
    the up to nine rows beyond the last full ten besides its [2u]. *)
Theorem split_block_sizes {A : Type} (input : list A) :
  let n := length input in
  let u := n / 10 in
  Split.sizes (Split.split input) = (6 * u, 2 * u, n - 8 * u)
  /\ 6 * u + 2 * u + (n - 8 * u) = n
  /\ 2 * u <= n - 8 * u < 2 * u + 10.
Proof.
  intros n u. split; [apply split_sizes |].
  pose proof (Nat.div_mod_eq n 10) as E.
  pose proof (Nat.mod_upper_bound n 10) as B.
  fold u in E. lia.
Qed.

(** X12.  An input of fewer than ten rows gets no training and no
    cross-validation rows: all of it is the test block. *)
Theorem split_fewer_than_ten {A : Type} (input : list A) :
  length input < 10 -> Split.split input = ([], [], input).
Proof.
  intros H. unfold Split.split, Split.int_round0.
  rewrite (Nat.div_small _ _ H). simpl.
  unfold slice. simpl. now rewrite Nat.sub_0_r, firstn_all.
Qed.

Lemma split_fewer_than_ten_witness :
  Split.split [1; 2; 3] = ([], [], [1; 2; 3]).
Proof.
  apply (split_fewer_than_ten [1; 2; 3]). simpl. lia.
Defined.

(** ** [get_cost]: what the clip does guard *)



(** ** The loop of [fit] in closed form *)

Section OuterProducts.
Import Np Net.
Open Scope R_scope.

Lemma transpose_row_vector (d : vec) :
  transpose [d] = map (fun x => [x]) d.
Proof.
  unfold transpose, col. simpl.
  transitivity (map (fun x : R => [x])
                  (map (fun j => nth j d 0) (seq 0 (length d)))).
  - now rewrite map_map.
  - now rewrite map_nth_seq.
Qed.

Lemma transpose_column_vector (d : vec) :
  d <> [] -> transpose (map (fun x => [x]) d) = [d].
Proof.
  intros Hd. rewrite <- transpose_row_vector.
  apply (transpose_involutive 1 (length d)).
  - split; [reflexivity | repeat constructor].
  - destruct d; [contradiction | simpl; lia].
Qed.

(** [u.T * a] for two row vectors: the outer product. *)
Lemma mmul_outer (d a : vec) :
  mmul (transpose [d]) [a] = map (fun x => map (fun z => x * z) a) d.
Proof.
  unfold mmul. rewrite !transpose_row_vector, map_map.
  apply map_ext. intros x. rewrite map_map. apply map_ext. intros z.
  unfold dot. simpl. lra.
Qed.

Lemma entry_outer (d a : vec) (i j : nat) :
  (i < length d)%nat -> (j < length a)%nat ->
  entry (map (fun x => map (fun z => x * z) a) d) i j
  = nth i d 0 * nth j a 0.
Proof.
  intros Hi Hj. unfold entry.
  rewrite (@nth_map_in R (list R) _ d i 0 []) by assumption.
  now rewrite (@nth_map_in R R _ a j 0 0).
Qed.

Lemma entry_madd (r c : nat) (A B : matrix) (i j : nat) :
  has_shape r c A -> has_shape r c B -> (i < r)%nat -> (j < c)%nat ->
  entry (madd A B) i j = entry A i j + entry B i j.
Proof.
  intros HA HB Hi Hj.
  pose proof (has_shape_row r c A i HA Hi) as LA.
  pose proof (has_shape_row r c B i HB Hi) as LB.
  destruct HA as [HlA _], HB as [HlB _].
  unfold entry, madd. unfold matrix, vec in *.
  rewrite (@zipWith_nth (list R) (list R) (list R) _ _ _ i [] [] [])
    by lia.
  now rewrite (zipWith_nth _ _ _ j 0 0 0) by lia.
Qed.

Lemma entry_zeros_like (M : matrix) (i j : nat) :
  entry (zeros_like M) i j = 0.
Proof.
  unfold entry, zeros_like.
  destruct (Nat.lt_ge_cases i (length M)) as [Hi | Hi].
  - rewrite (@nth_map_in (list R) (list R) _ M i [] []) by assumption.
    destruct (Nat.lt_ge_cases j (length (nth i M []))) as [Hj | Hj].
    + now rewrite (@nth_map_in R R _ _ j 0 0).
    + apply nth_overflow. now rewrite length_map.
  - rewrite (nth_overflow (map _ M)) by (now rewrite length_map).
    now destruct j.
Qed.
End OuterProducts.

Section ClosedForm.
Import Np Net.
Open Scope R_scope.

Variables m k hid L : nat.
Variables theta2 a1 z2 a2 h y : matrix.
Hypothesis HL : (1 <= L)%nat.
Hypothesis Htheta2 : has_shape L (hid + 1) theta2.
Hypothesis Ha1 : has_shape m (k + 1) a1.
Hypothesis Hz2 : has_shape m hid z2.
Hypothesis Ha2 : has_shape m (hid + 1) a2.
Hypothesis Hh : has_shape m L h.
Hypothesis Hy : has_shape m L y.

Let step := backprop_step theta2 a1 z2 a2 h y.

Lemma outer_shape (d a : vec) :
  has_shape (length d) (length a) (map (fun x => map (fun z => x * z) a) d).
Proof.
  split; [apply length_map |].
  apply Forall_map, Forall_forall. intros x _. apply length_map.
Qed.

Lemma residual3_length (t : nat) :
  (t < m)%nat -> length (residual3 h y t) = L.
Proof.
  intros Ht. unfold residual3. rewrite zipWith_length.
  pose proof (has_shape_row m L h t Hh Ht) as E1.
  pose proof (has_shape_row m L y t Hy Ht) as E2.
  unfold matrix, vec in E1, E2 |- *. lia.
Qed.

(** The vector [(theta2.T * d3t.T).T (.) sigmoid_gradient(z2t)] of the
    loop, entry by entry. *)
Lemma hidden_residual (t : nat) :
  (t < m)%nat ->
  multiply
    (transpose (mmul (transpose theta2)
                  (transpose (msub (row t h) (row t y)))))
    (map (map sigmoid_gradient) [1 :: ravel (row t z2)])
  = [map (residual2 theta2 z2 h y t) (seq 0 (hid + 1))].
Proof.
  intros Ht.
  pose proof (residual3_length t Ht) as Ld.
  pose proof (has_shape_row m hid z2 t Hz2 Ht) as Lz.
  assert (Hd : residual3 h y t <> []).
  { intros E. rewrite E in Ld. simpl in Ld. lia. }
  unfold row, msub. simpl zipWith. fold (residual3 h y t).
  rewrite transpose_row_vector.
  unfold mmul at 1. rewrite (transpose_column_vector _ Hd).
  unfold transpose at 2. rewrite (ncols_shape L (hid + 1) theta2 Htheta2 HL).
  rewrite !map_map. simpl map at 1.
  assert (E : map (fun x : nat => [dot (col x theta2) (residual3 h y t)])
                (seq 0 (hid + 1))
              = map (fun v : R => [v])
                  (map (fun c => dot (col c theta2) (residual3 h y t))
                     (seq 0 (hid + 1)))) by (now rewrite map_map).
  unfold matrix, vec in E, Lz |- *. rewrite E. clear E.
  rewrite transpose_column_vector.
  2: { rewrite Nat.add_1_r. simpl. discriminate. }
  unfold multiply, ravel. simpl. rewrite app_nil_r. f_equal.
  apply (nth_ext _ _ 0 0).
  - rewrite zipWith_length, !length_map, length_seq. simpl.
    rewrite length_map, Lz. lia.
  - intros c Hc. rewrite zipWith_length, !length_map, length_seq in Hc.
    assert (Hc' : (c < hid + 1)%nat) by lia.
    rewrite (zipWith_nth _ _ _ c 0 0 0).
    2: now rewrite length_map, length_seq.
    2: { simpl. rewrite length_map, Lz. lia. }
    rewrite (@nth_map_in nat R _ (seq 0 (hid + 1)) c 0%nat 0)
      by (now rewrite length_seq).
    rewrite (@nth_map_in nat R (residual2 theta2 z2 h y t)
               (seq 0 (hid + 1)) c 0%nat 0) by (now rewrite length_seq).
    rewrite seq_nth by assumption. simpl plus.
    unfold residual2. f_equal.
    change (sigmoid_gradient 1 :: map sigmoid_gradient (nth t z2 []))
      with (map sigmoid_gradient (1 :: nth t z2 [])).
    apply (@nth_map_in R R sigmoid_gradient (1 :: nth t z2 []) c 0 0).
    simpl. unfold matrix, vec. rewrite Lz. lia.
Qed.

Lemma backprop_step_entries (acc : matrix * matrix) (t : nat) :
  (t < m)%nat -> accumulators_shaped hid k L acc ->
  (forall i j, (i < hid)%nat -> (j < k + 1)%nat ->
     entry (fst (step acc t)) i j
     = entry (fst acc) i j + residual2 theta2 z2 h y t (S i) * entry a1 t j)
  /\
  (forall i j, (i < L)%nat -> (j < hid + 1)%nat ->
     entry (snd (step acc t)) i j
     = entry (snd acc) i j + nth i (residual3 h y t) 0 * entry a2 t j).
Proof.
  intros Ht [H1 H2]. destruct acc as [delta1 delta2]. simpl in H1, H2.
  pose proof (residual3_length t Ht) as Ld.
  assert (La1 : length (nth t a1 []) = (k + 1)%nat)
    by exact (has_shape_row m (k + 1) a1 t Ha1 Ht).
  assert (La2 : length (nth t a2 []) = (hid + 1)%nat)
    by exact (has_shape_row m (hid + 1) a2 t Ha2 Ht).
  unfold step, backprop_step. rewrite (hidden_residual t Ht).
  cbn [fst snd]. split; intros i j Hi Hj.
  - unfold cols_from1, row. cbn [map]. rewrite mmul_outer.
    set (d := tl (map (residual2 theta2 z2 h y t) (seq 0 (hid + 1)))).
    assert (Ld2 : length d = hid).
    { subst d. rewrite Nat.add_1_r. simpl. now rewrite length_map, length_seq. }
    rewrite (entry_madd hid (k + 1)); try assumption.
    2: { rewrite <- Ld2 at 1. rewrite <- La1. apply outer_shape. }
    rewrite entry_outer by lia. f_equal. f_equal.
    subst d. rewrite Nat.add_1_r. simpl.
    rewrite <- seq_shift, map_map.
    rewrite (@nth_map_in nat R _ (seq 0 hid) i 0%nat 0)
      by (now rewrite length_seq).
    now rewrite seq_nth.
  - unfold row, msub. simpl zipWith. fold (residual3 h y t).
    rewrite mmul_outer.
    rewrite (entry_madd L (hid + 1)); try assumption.
    2: { rewrite <- Ld at 1. rewrite <- La2. apply outer_shape. }
    now rewrite entry_outer by lia.
Qed.

(** The loop adds, entry by entry, one term per example. *)
Lemma backprop_entries (acc : matrix * matrix) :
  accumulators_shaped hid k L acc ->
  (forall i j, (i < hid)%nat -> (j < k + 1)%nat ->
     entry (fst (backprop theta2 a1 z2 a2 h y m acc)) i j
     = entry (fst acc) i j
       + sum_over m (fun t => residual2 theta2 z2 h y t (S i) * entry a1 t j))
  /\
  (forall i j, (i < L)%nat -> (j < hid + 1)%nat ->
     entry (snd (backprop theta2 a1 z2 a2 h y m acc)) i j
     = entry (snd acc) i j
       + sum_over m (fun t => nth i (residual3 h y t) 0 * entry a2 t j)).
Proof.
  unfold backprop, sum_over. fold step.
  assert (G : forall (l : list nat) (acc : matrix * matrix),
             (forall t, In t l -> (t < m)%nat) ->
             accumulators_shaped hid k L acc ->
             (forall i j, (i < hid)%nat -> (j < k + 1)%nat ->
                entry (fst (fold_left step l acc)) i j
                = entry (fst acc) i j
                  + fold_right Rplus 0
                      (map (fun t => residual2 theta2 z2 h y t (S i)
                                     * entry a1 t j) l))
             /\
             (forall i j, (i < L)%nat -> (j < hid + 1)%nat ->
                entry (snd (fold_left step l acc)) i j
                = entry (snd acc) i j
                  + fold_right Rplus 0
                      (map (fun t => nth i (residual3 h y t) 0
                                     * entry a2 t j) l))).
  { induction l as [| t l IH]; intros acc' Hl Hacc; simpl.
    - split; intros; lra.
    - assert (Ht : (t < m)%nat) by (apply Hl; now left).
      destruct (backprop_step_entries acc' t Ht Hacc) as [S1 S2].
      destruct (IH (step acc' t)) as [I1 I2].
      + intros t' Ht'. apply Hl. now right.
      + apply (backprop_step_shape m); assumption.
      + split; intros i j Hi Hj.
        * rewrite I1, S1 by assumption. lra.
        * rewrite I2, S2 by assumption. lra. }
  intros Hacc. apply G; [| exact Hacc].
  intros t Ht. apply in_seq in Ht. lia.
Qed.
End ClosedForm.

(** The loop on two examples with residuals [-1/2] and [1/4]: the second
    accumulator holds [-1/2 * 1 + 1/4 * 1] and [-1/2 * 1/2 + 1/4 * 1/4]. *)
Lemma backprop_two_examples :
  snd (Net.backprop [[3; 4]%R] [[1; 2]; [1; 3]]%R [[5]; [7]]%R
         [[1; / 2]; [1; / 4]]%R [[/ 2]; [/ 4]]%R [[1]; [0]]%R 2
         (Np.zeros_like [[1; 2]%R], Np.zeros_like [[3; 4]%R]))
  = [[- / 4; - (3 / 16)]]%R.
Proof.
  cbv [Net.backprop Net.backprop_step fold_left seq Np.zeros_like].
  simpl. unfold Np.madd, Np.dot, zipWith. simpl.
  repeat f_equal; lra.
Qed.

(** X14.  The loop of [fit] computes, entry by entry, the sums of
    section 4.4 of the specification: from zero accumulators, entry [(i, j)]
    of the first is the sum over the examples of the hidden residual of unit
    [i] (entry [i+1] of [d2t], the bias entry being dropped) times input
    [j] of [a1], and entry [(i, j)] of the second is the sum of the output
    residual [h - y] of label [i] times activation [j] of [a2]. *)
Theorem backprop_sums_outer_products
        (m k hid L : nat) (theta1 theta2 a1 z2 a2 h y : matrix) :
  1 <= L ->
  has_shape hid (k + 1) theta1 -> has_shape L (hid + 1) theta2 ->
  has_shape m (k + 1) a1 -> has_shape m hid z2 ->
  has_shape m (hid + 1) a2 -> has_shape m L h -> has_shape m L y ->
  let '(delta1, delta2) :=
    Net.backprop theta2 a1 z2 a2 h y m
      (Np.zeros_like theta1, Np.zeros_like theta2) in
  (forall i j, i < hid -> j < k + 1 ->
     entry delta1 i j
     = sum_over m (fun t => residual2 theta2 z2 h y t (S i) * entry a1 t j)%R)
  /\
  (forall i j, i < L -> j < hid + 1 ->
     entry delta2 i j
     = sum_over m (fun t => nth i (residual3 h y t) 0 * entry a2 t j)%R).
Proof.
  intros HL H1 H2 Ha1 Hz2 Ha2 Hh Hy.
  assert (Hacc : accumulators_shaped hid k L
                   (Np.zeros_like theta1, Np.zeros_like theta2))
    by (split; simpl; now apply zeros_like_shape).
  destruct (backprop_entries m k hid L theta2 a1 z2 a2 h y
              HL H2 Ha1 Hz2 Ha2 Hh Hy _ Hacc) as [E1 E2].
  destruct (Net.backprop _ _ _ _ _ _ _ _) as [delta1 delta2].
  simpl in E1, E2. split; intros i j Hi Hj.
  - rewrite (E1 i j Hi Hj), entry_zeros_like. lra.
  - rewrite (E2 i j Hi Hj), entry_zeros_like. lra.
Qed.

Lemma backprop_sums_outer_products_witness :
  let '(delta1, delta2) :=
    Net.backprop [[3; 4]%R] [[1; 2]; [1; 3]]%R [[5]; [7]]%R
      [[1; / 2]; [1; / 4]]%R [[/ 2]; [/ 4]]%R [[1]; [0]]%R 2
      (Np.zeros_like [[1; 2]%R], Np.zeros_like [[3; 4]%R]) in
  (forall i j, i < 1 -> j < 1 + 1 ->
     entry delta1 i j
     = sum_over 2
         (fun t => residual2 [[3; 4]%R] [[5]; [7]]%R [[/ 2]; [/ 4]]%R
                     [[1]; [0]]%R t (S i)
                   * entry [[1; 2]; [1; 3]]%R t j)%R)
  /\
  (forall i j, i < 1 -> j < 1 + 1 ->
     entry delta2 i j
     = sum_over 2
         (fun t => nth i (residual3 [[/ 2]; [/ 4]]%R [[1]; [0]]%R t) 0
                   * entry [[1; / 2]; [1; / 4]]%R t j)%R).
Proof.
  apply (backprop_sums_outer_products 2 1 1 1 [[1; 2]%R] [[3; 4]%R]);
    [lia | | | | | | |]; (split; [reflexivity | repeat constructor]).
Defined.

Section GradientFormula.
Import Np Net.
Open Scope R_scope.

Lemma entry_mdiv (m r c : nat) (M : matrix) (i j : nat) :
  has_shape r c M -> (i < r)%nat -> (j < c)%nat ->
  entry (mdiv M m) i j = entry M i j / INR m.
Proof.
  intros HM Hi Hj.
  assert (Lr : length (nth i M []) = c) by exact (has_shape_row r c M i HM Hi).
  destruct HM as [Hl _]. unfold entry, mdiv. unfold matrix, vec in *.
  rewrite (@nth_map_in (list R) (list R) _ M i [] []) by lia.
  now rewrite (@nth_map_in R R _ _ j 0 0) by lia.
Qed.
End GradientFormula.

(** X15.  The gradient of [fit], read back as two matrices by
    [reshape_theta], is the back-propagation formula of section 4.4: entry
    [(i, j)] is the sum over the examples of residual times activation,
    divided by [m], plus [Theta(i,j) * lam / m] when [j] is not the bias
    column. *)
Theorem fit_gradient_formula
        (w : World) (v : vec) (X y : matrix) (out : bool) (m : nat) :
  let s := self w in
  1 <= m ->
  length v = Net.params_size s ->
  has_shape m (input_size s) X -> has_shape m (num_labels s) y ->
  1 <= num_labels s ->
  exists J g t1 t2 G1 G2,
    fst (Net.fit v X y out w) = Ok (J, g)
    /\ Net.reshape_theta s v = Ok (t1, t2)
    /\ Net.reshape_theta s g = Ok (G1, G2)
    /\ let '(a1, z2, a2, z3, h) := forward_spec X t1 t2 in
       (forall i j, i < hidden_size s -> j < input_size s + 1 ->
          entry G1 i j
          = (sum_over m (fun t => residual2 t2 z2 h y t (S i) * entry a1 t j)
             / INR m
             + match j with
               | 0 => 0
               | S _ => entry t1 i j * lam s / INR m
               end)%R)
       /\
       (forall i j, i < num_labels s -> j < hidden_size s + 1 ->
          entry G2 i j
          = (sum_over m (fun t => nth i (residual3 h y t) 0 * entry a2 t j)
             / INR m
             + match j with
               | 0 => 0
               | S _ => entry t2 i j * lam s / INR m
               end)%R).
Proof.
  intros s Hm Hv HX Hy HL.
  destruct (reshape_theta_total s v Hv) as (t1 & t2 & Hr & H1 & H2 & _).
  pose proof (forward_spec_shapes m _ _ _ X t1 t2 HX H1 H2) as Hsh.
  pose proof (feed_forward_is_spec _ _ _ X t1 t2 H1 H2) as Hff.
  destruct (forward_spec X t1 t2) as [[[[a1 z2] a2] z3] h] eqn:Efs.
  destruct Hsh as (Ha1 & Hz2 & Ha2 & _ & Hh).
  assert (Hacc : accumulators_shaped (hidden_size s) (input_size s)
                   (num_labels s)
                   (Np.zeros_like t1, Np.zeros_like t2))
    by (split; simpl; now apply zeros_like_shape).
  pose proof (backprop_shape m _ _ _ t2 a1 z2 a2 h y
                HL H2 Ha1 Hz2 Ha2 Hh Hy _ Hacc) as Hshape.
  destruct (backprop_entries m _ _ _ t2 a1 z2 a2 h y
              HL H2 Ha1 Hz2 Ha2 Hh Hy _ Hacc) as [E1 E2].
  destruct (Net.backprop t2 a1 z2 a2 h y m
              (Np.zeros_like t1, Np.zeros_like t2))
    as [delta1 delta2] eqn:Ebp.
  destruct Hshape as [Hd1 Hd2]. simpl in Hd1, Hd2, E1, E2.
  assert (Hg1 : has_shape (hidden_size s) (input_size s + 1)
                  (Net.regularize (lam s) m (Np.mdiv delta1 m) t1))
    by (apply regularize_shape; [now apply mdiv_shape | assumption]).
  assert (Hg2 : has_shape (num_labels s) (hidden_size s + 1)
                  (Net.regularize (lam s) m (Np.mdiv delta2 m) t2))
    by (apply regularize_shape; [now apply mdiv_shape | assumption]).
  assert (Hfit : exists J,
             fst (Net.fit v X y out w)
             = Ok (J, Net.flatten
                        (Net.regularize (lam s) m (Np.mdiv delta1 m) t1)
                        (Net.regularize (lam s) m (Np.mdiv delta2 m) t2))).
  { rewrite fit_cases. fold s. rewrite Hr, Hff.
    assert (HlX : length X = m) by exact (proj1 HX). rewrite HlX.
    destruct m as [| m']; [lia |].
    unfold Net.regularized_cost. eexists. cbn [fst]. do 2 f_equal.
    unfold Net.gradient. cbv zeta. fold s. now rewrite Ebp. }
  destruct Hfit as [J HJ].
  exists J. eexists. exists t1, t2. do 2 eexists.
  split; [exact HJ |]. split; [exact Hr |].
  split; [now apply reshape_theta_flatten |].
  rewrite Efs. split; intros i j Hi Hj.
  - rewrite (regularize_entry _ m (hidden_size s) (input_size s))
      by (assumption || now apply mdiv_shape).
    destruct j as [| j'].
    + rewrite (entry_mdiv m (hidden_size s) (input_size s + 1))
        by (assumption || lia).
      rewrite (E1 i 0%nat Hi Hj), entry_zeros_like. unfold Rdiv. ring.
    + rewrite (entry_mdiv m (hidden_size s) (input_size s + 1))
        by assumption.
      rewrite (E1 i (S j') Hi Hj), entry_zeros_like. unfold Rdiv. ring.
  - rewrite (regularize_entry _ m (num_labels s) (hidden_size s))
      by (assumption || now apply mdiv_shape).
    destruct j as [| j'].
    + rewrite (entry_mdiv m (num_labels s) (hidden_size s + 1))
        by (assumption || lia).
      rewrite (E2 i 0%nat Hi Hj), entry_zeros_like. unfold Rdiv. ring.
    + rewrite (entry_mdiv m (num_labels s) (hidden_size s + 1))
        by assumption.
      rewrite (E2 i (S j') Hi Hj), entry_zeros_like. unfold Rdiv. ring.
Qed.

Lemma fit_gradient_formula_witness :
  exists J g t1 t2 G1 G2,
    fst (Net.fit [1; 2; 3; 4]%R [[1%R]] [[1%R]] true Examples.tiny_world)
    = Ok (J, g)
    /\ Net.reshape_theta Examples.tiny [1; 2; 3; 4]%R = Ok (t1, t2)
    /\ Net.reshape_theta Examples.tiny g = Ok (G1, G2)
    /\ let '(a1, z2, a2, z3, h) := forward_spec [[1%R]] t1 t2 in
       (forall i j, i < 1 -> j < 1 + 1 ->
          entry G1 i j
          = (sum_over 1 (fun t => residual2 t2 z2 h [[1%R]] t (S i)
                                  * entry a1 t j)
             / INR 1
             + match j with
               | 0 => 0
               | S _ => entry t1 i j * 1 / INR 1
               end)%R)
       /\
       (forall i j, i < 1 -> j < 1 + 1 ->
          entry G2 i j
          = (sum_over 1 (fun t => nth i (residual3 h [[1%R]] t) 0
                                  * entry a2 t j)
             / INR 1
             + match j with
               | 0 => 0
               | S _ => entry t2 i j * 1 / INR 1
               end)%R).
Proof.
  apply (fit_gradient_formula Examples.tiny_world
           [1; 2; 3; 4]%R [[1%R]] [[1%R]] true 1).
  - lia.
  - reflexivity.
  - split; [reflexivity | repeat constructor].
  - split; [reflexivity | repeat constructor].
  - simpl. lia.
Defined.

(** ** [training_acc] and [test_acc] *)

Section ReportFacts.
Import Np Net Report.

Let tally (Y : matrix) (y_pred : list nat) (correct x : nat) : nat :=
  if Req_dec_T (entry Y x (nth x y_pred 0)) 1 then correct + 1 else correct.

Lemma tally_le (Y : matrix) (y_pred : list nat) (l : list nat) :
  forall a, fold_left (tally Y y_pred) l a <= a + length l.
Proof.
  induction l as [| x l IH]; intros a; simpl; [lia |].
  specialize (IH (tally Y y_pred a x)).
  assert (H : tally Y y_pred a x <= a + 1)
    by (unfold tally; destruct (Req_dec_T _ _); lia).
  lia.
Qed.

Lemma tally_lt (Y : matrix) (y_pred : list nat) (l : list nat) (x : nat) :
  In x l -> entry Y x (nth x y_pred 0) <> 1%R ->
  forall a, fold_left (tally Y y_pred) l a < a + length l.
Proof.
  intros Hin Hx. induction l as [| x' l IH]; intros a; [contradiction |].
  simpl. destruct Hin as [-> | Hin].
  - pose proof (tally_le Y y_pred l (tally Y y_pred a x)) as H.
    assert (E : tally Y y_pred a x = a)
      by (unfold tally; destruct (Req_dec_T _ _); [contradiction | easy]).
    lia.
  - specialize (IH Hin (tally Y y_pred a x')).
    assert (H : tally Y y_pred a x' <= a + 1)
      by (unfold tally; destruct (Req_dec_T _ _); lia).
    lia.
Qed.

Lemma count_correct_le (Y : matrix) (y_pred : list nat) (n : nat) :
  count_correct Y y_pred n <= n.
Proof.
  unfold count_correct.
  pose proof (tally_le Y y_pred (seq 0 n) 0) as H.
  rewrite length_seq in H. exact H.
Qed.

Lemma count_correct_lt (Y : matrix) (y_pred : list nat) (n x : nat) :
  x < n -> entry Y x (nth x y_pred 0) <> 1%R ->
  count_correct Y y_pred n < n.
Proof.
  intros Hx Hw. unfold count_correct.
  pose proof (tally_lt Y y_pred (seq 0 n) x) as H.
  rewrite length_seq in H. apply H; [apply in_seq; lia | exact Hw].
Qed.

(** What [report_accuracy] can do: raise and leave everything as it was,
    or write one line, whose percentage is 0 or 100. *)
Lemma report_accuracy_cases (label : string) (s : NeuralNet) (p : vec)
      (X Y : matrix) (c : Console) :
  (exists e, report_accuracy label s p X Y c = (Raise e, c))
  \/ report_accuracy label s p X Y c
     = (Ok tt, write_line (label ++ " accuracy = 0%") c)
  \/ report_accuracy label s p X Y c
     = (Ok tt, write_line (label ++ " accuracy = 100%") c).
Proof.
  unfold report_accuracy.
  destruct (reshape_theta s p) as [[t1 t2] | e]; [| left; now exists e].
  destruct (feed_forward X t1 t2) as [[[[a1 z2] a2] z3] h].
  destruct (argmax_rows h) as [y_pred | e]; [| left; now exists e].
  destruct (length Y) as [| n] eqn:En; [left; now eexists |].
  right. pose proof (count_correct_le Y y_pred (S n)) as Hle.
  destruct (Nat.eq_dec (count_correct Y y_pred (S n)) (S n)) as [E | E].
  - right. rewrite E, Nat.div_same by lia. reflexivity.
  - left. rewrite Nat.div_small by lia. reflexivity.
Qed.

Lemma report_accuracy_miss (label : string) (s : NeuralNet) (p : vec)
      (X Y t1 t2 : matrix) (y_pred : list nat) (x : nat) (c : Console) :
  reshape_theta s p = Ok (t1, t2) ->
  argmax_rows (snd (feed_forward X t1 t2)) = Ok y_pred ->
  x < length Y -> entry Y x (nth x y_pred 0) <> 1%R ->
  report_accuracy label s p X Y c
  = (Ok tt, write_line (label ++ " accuracy = 0%") c).
Proof.
  intros Hr Ha Hx Hw. unfold report_accuracy. rewrite Hr.
  destruct (feed_forward X t1 t2) as [[[[a1 z2] a2] z3] h].
  simpl in Ha. rewrite Ha.
  pose proof (count_correct_lt Y y_pred (length Y) x Hx Hw) as Hlt.
  destruct (length Y) as [| n]; [lia |].
  rewrite Nat.div_small by lia. reflexivity.
Qed.
End ReportFacts.

(** X16.  [training_acc] either raises, and then nothing was written, or
    writes exactly one line, and the percentage on it is 0 or 100:
    [correct / examples] is an integer division.  The instance, the costs
    and the files are untouched either way. *)
Theorem training_acc_reports_zero_or_hundred
        (loaded : option vec) (c : Console) :
  (exists e, Report.training_acc loaded c = (Raise e, c))
  \/ Report.training_acc loaded c
     = (Ok tt, {| world := world c;
                  lines := lines c ++ ["train accuracy = 0%"%string] |})
  \/ Report.training_acc loaded c
     = (Ok tt, {| world := world c;
                  lines := lines c ++ ["train accuracy = 100%"%string] |}).
Proof.
  unfold Report.training_acc. apply report_accuracy_cases.
Qed.

(** X17.  [test_acc] likewise: it raises and writes nothing, or writes one
    line with 0 or 100 on it, whatever [normalize] returns. *)
Theorem test_acc_reports_zero_or_hundred
        (normalize : matrix -> result matrix) (X Y : matrix)
        (loaded : option vec) (c : Console) :
  (exists e, Report.test_acc normalize X Y loaded c = (Raise e, c))
  \/ Report.test_acc normalize X Y loaded c
     = (Ok tt, {| world := world c;
                  lines := lines c ++ ["test accuracy = 0%"%string] |})
  \/ Report.test_acc normalize X Y loaded c
     = (Ok tt, {| world := world c;
                  lines := lines c ++ ["test accuracy = 100%"%string] |}).
Proof.
  unfold Report.test_acc.
  destruct (normalize X) as [X' | e]; [| left; now exists e].
  apply report_accuracy_cases.
Qed.

(** X18.  One misclassified training example is enough for [training_acc]
    to report 0%: with [X] and [Y] of matching shapes, when the prediction
    for some row [x] does not hit the 1 of its label row, the line written
    is "train accuracy = 0%", however many other rows are right. *)
Theorem training_acc_one_miss
        (c : Console) (t1 t2 : matrix) (y_pred : list nat) (x m : nat) :
  let s := self (world c) in
  has_shape m (input_size s) (X s) -> has_shape m (num_labels s) (Y s) ->
  Net.reshape_theta s (params s) = Ok (t1, t2) ->
  Report.argmax_rows (snd (Net.feed_forward (X s) t1 t2)) = Ok y_pred ->
  x < length (Y s) ->
  entry (Y s) x (nth x y_pred 0) <> 1%R ->
  Report.training_acc None c
  = (Ok tt, {| world := world c;
               lines := lines c ++ ["train accuracy = 0%"%string] |}).
Proof.
  intros s _ _ Hr Ha Hx Hw. unfold Report.training_acc. fold s.
  exact (report_accuracy_miss "train" s (params s) (X s) (Y s) t1 t2 y_pred
           x c Hr Ha Hx Hw).
Qed.

Lemma training_acc_one_miss_witness :
  Report.training_acc None MoreExamples.two_labels_console
  = (Ok tt, {| world := world MoreExamples.two_labels_console;
               lines := lines MoreExamples.two_labels_console
                        ++ ["train accuracy = 0%"%string] |}).
Proof.
  apply (training_acc_one_miss MoreExamples.two_labels_console
           [[0; 0]%R] [[0; 0]%R; [0; 0]%R] [0; 0] 1 2).
  - split; [reflexivity | repeat constructor].
  - split; [reflexivity | repeat constructor].
  - reflexivity.
  - simpl.
    repeat match goal with
           | |- context [Rlt_dec ?a ?b] =>
               destruct (Rlt_dec a b) as [H | _]; [exfalso; lra |]
           end.
    reflexivity.
  - simpl. lia.
  - unfold entry. simpl. lra.
Defined.

(** X19.  Parameters read from a one-line file of at least two values
    (which [np.loadtxt] returns as a one-dimensional array) whose number
    does not fit the network are refused by [training_acc] and by
    [test_acc] with the shape error, before any line is written.  A file of
    one value is read as a zero-dimensional array, which line 135 cannot
    slice: that case is outside the statement. *)
Theorem accuracy_rejects_misfit_file
        (normalize : matrix -> result matrix) (X' Y' : matrix)
        (p : vec) (c : Console) :
  2 <= length p ->
  length p <> Net.params_size (self (world c)) ->
  Report.training_acc (Some p) c = (Raise ValueError, c)
  /\ (exists e, Report.test_acc normalize X' Y' (Some p) c = (Raise e, c)).
Proof.
  intros _ Hp. split.
  - unfold Report.training_acc, Report.report_accuracy.
    now rewrite (reshape_theta_fails _ p Hp).
  - unfold Report.test_acc.
    destruct (normalize X') as [Xn | e]; [| now exists e].
    exists ValueError. unfold Report.report_accuracy.
    now rewrite (reshape_theta_fails _ p Hp).
Qed.

Lemma accuracy_rejects_misfit_file_witness :
  Report.training_acc (Some [1; 2; 3]%R) MoreExamples.two_labels_console
  = (Raise ValueError, MoreExamples.two_labels_console)
  /\ (exists e,
         Report.test_acc (fun M => Ok M) [[1%R]] [[1; 0]%R]
           (Some [1; 2; 3]%R) MoreExamples.two_labels_console
         = (Raise e, MoreExamples.two_labels_console)).
Proof.
  apply (accuracy_rejects_misfit_file (fun M => Ok M) [[1%R]] [[1; 0]%R]
           [1; 2; 3]%R MoreExamples.two_labels_console).
  - simpl. lia.
  - simpl. discriminate.
Defined.

(** ** [test]: the learning curve *)

Section DiagnosticsFacts.
Import Net Trainer Init Report Diagnostics.

Variable minimize : vec -> nat -> optimizer.
Variable rng : nat -> R.
Variable step : nat.
Variables x_train y_train x_cv y_cv : matrix.

Let turn := test_turn minimize rng step x_train y_train x_cv y_cv.
Let loop := test_loop minimize rng step x_train y_train x_cv y_cv.
Let n := length x_train.

Lemma in_world_fit_silent (v : vec) (X y : matrix) (k : Console) :
  in_world (fit v X y false) k = (fst (fit v X y false (world k)), k).
Proof.
  unfold in_world. pose proof (fit_silent v X y (world k)) as H.
  destruct (fit v X y false (world k)) as [r w']. simpl in *. subst w'.
  now destruct k.
Qed.

Lemma in_world_run_silent (o : optimizer) (X Y : matrix) (k : Console) :
  in_world (run o X Y false) k = (fst (run o X Y false (world k)), k).
Proof.
  unfold in_world. pose proof (run_silent o X Y (world k)) as H.
  destruct (run o X Y false (world k)) as [r w']. simpl in *. subst w'.
  now destruct k.
Qed.

(** One turn writes its status line first and changes nothing else; when
    it completes, both curves have one more point and [i] is the next
    multiple of [step]. *)
Lemma test_turn_effects (st : loop_state) (k : Console) :
  snd (turn st k) = write_line (status_line (index st) n) k
  /\ forall st', fst (turn st k) = Ok st' ->
       amount st' = amount st + 1
       /\ index st' = (amount st + 1) * step
       /\ length (fst (errors st')) = length (fst (errors st)) + 1
       /\ length (snd (errors st')) = length (snd (errors st)) + 1.
Proof.
  unfold turn, test_turn. fold n.
  rewrite in_world_run_silent.
  destruct (fst (run _ _ _ false _)) as [fmin_x | e];
    [| split; [reflexivity | discriminate]].
  rewrite in_world_fit_silent.
  destruct (fst (fit fmin_x _ _ false _)) as [[train_cost g] | e];
    [| split; [reflexivity | discriminate]].
  rewrite in_world_fit_silent.
  destruct (fst (fit fmin_x _ _ false _)) as [[val_cost g'] | e];
    [| split; [reflexivity | discriminate]].
  split; [reflexivity |]. intros st' E. injection E as <-. simpl.
  rewrite !length_app. simpl. repeat split; reflexivity.
Qed.

Lemma test_loop_trace (fuel : nat) :
  forall (st : loop_state) (k : Console) (r : result curves) (k' : Console),
    loop fuel st k = Some (r, k') ->
    world k' = world k
    /\ exists turns,
        lines k' = lines k ++ trace step n (index st) (amount st) turns
        /\ forall et ev, r = Ok (et, ev) ->
             length et = length (fst (errors st)) + turns
             /\ length ev = length (snd (errors st)) + turns.
Proof.
  induction fuel as [| fuel IH]; intros st k r k' H; unfold loop in H;
    simpl in H; fold n in H.
  - destruct (index st <? n); [discriminate |]. injection H as <- <-.
    split; [reflexivity |]. exists 0. simpl. rewrite app_nil_r.
    split; [reflexivity |]. intros et ev E.
    destruct (errors st). injection E as <- <-. simpl. lia.
  - destruct (index st <? n).
    + fold turn in H. destruct (test_turn_effects st k) as [Hk Hst].
      destruct (turn st k) as [[st' | e] k1]; simpl in Hk, Hst; subst k1.
      * fold loop in H. destruct (IH _ _ _ _ H) as (Hw & turns & Hl & Hc).
        destruct (Hst st' eq_refl) as (Ea & Ei & E1 & E2).
        split; [exact Hw |]. exists (S turns). simpl.
        rewrite Hl, Ei, Ea. simpl. rewrite <- app_assoc. simpl.
        split; [reflexivity |]. intros et ev E.
        destruct (Hc et ev E) as [C1 C2]. lia.
      * injection H as <- <-. split; [reflexivity |]. exists 1. simpl.
        split; [reflexivity | discriminate].
    + injection H as <- <-.
      split; [reflexivity |]. exists 0. simpl. rewrite app_nil_r.
      split; [reflexivity |]. intros et ev E.
      destruct (errors st). injection E as <- <-. simpl. lia.
Qed.

Lemma test_loop_ends (fuel : nat) :
  1 <= step ->
  forall (st : loop_state) (k : Console),
    amount st <= index st -> n <= fuel + amount st ->
    exists out, loop fuel st k = Some out.
Proof.
  intros Hstep. induction fuel as [| fuel IH]; intros st k Hai Hf;
    unfold loop; simpl; fold n.
  - destruct (Nat.ltb_spec (index st) n); [lia | eexists; reflexivity].
  - destruct (Nat.ltb_spec (index st) n); [| eexists; reflexivity].
    fold turn. destruct (test_turn_effects st k) as [_ Hst].
    destruct (turn st k) as [[st' | e] k1]; [| eexists; reflexivity].
    destruct (Hst st' eq_refl) as (Ea & Ei & _).
    fold loop. apply IH; rewrite ?Ea, ?Ei; nia.
Qed.
End DiagnosticsFacts.

Section DiagnosticsStall.
Import Net Trainer Init Report Diagnostics.

Variable minimize : vec -> nat -> optimizer.
Variable rng : nat -> R.
Variables x_train y_train x_cv y_cv : matrix.

(** With [step = 0] the index falls to 0 after the first turn and stays
    there. *)
Lemma test_loop_stalls (fuel : nat) :
  forall (st : loop_state) (k : Console),
    index st < length x_train -> 0 < length x_train ->
    forall cs k',
      test_loop minimize rng 0 x_train y_train x_cv y_cv fuel st k
      <> Some (Ok cs, k').
Proof.
  induction fuel as [| fuel IH]; intros st k Hi Hn cs k'; simpl;
    destruct (Nat.ltb_spec (index st) (length x_train)); try lia.
  - discriminate.
  - destruct (test_turn_effects minimize rng 0 x_train y_train x_cv y_cv
                st k) as [_ Hst].
    destruct (test_turn minimize rng 0 x_train y_train x_cv y_cv st k)
      as [[st' | e] k1]; [| discriminate].
    destruct (Hst st' eq_refl) as (_ & Ei & _).
    apply IH; [rewrite Ei; lia | exact Hn].
Qed.
End DiagnosticsStall.

Section TestFacts.
Import Diagnostics.

Lemma split_train_length {A : Type} (input : list A) :
  length (fst (fst (Split.split input))) = 6 * (length input / 10).
Proof.
  pose proof (split_sizes input) as H.
  destruct (Split.split input) as [[a b] c]. simpl in *. congruence.
Qed.
End TestFacts.

(** A run of two turns: [test(step=3)] on ten examples. *)
Lemma test_on_ten_rows :
  Diagnostics.test Examples.one_step_minimize (fun _ => 0.5%R) 10 3
    MoreExamples.ten_rows_console
  = Some (Ok MoreExamples.ten_rows_curves, MoreExamples.ten_rows_after).
Proof. reflexivity. Qed.

(** X20.  Whenever [test] comes to an end, by returning or by an exception,
    the instance, the costs received by the writer and the files are what
    they were; the lines written are the status lines of the turns started,
    for the training sizes 1, [step], [2*step], ... in this order; and when
    it returns, either curve has one point per turn. *)
Theorem test_trace
        (minimize : vec -> nat -> optimizer) (rng : nat -> R)
        (fuel step : nat) (k k' : Console) (r : result Diagnostics.curves) :
  Diagnostics.test minimize rng fuel step k = Some (r, k') ->
  world k' = world k
  /\ exists turns,
      lines k'
      = lines k
        ++ Diagnostics.trace step
             (length (fst (fst (Split.split (X (self (world k)))))))
             1 0 turns
      /\ forall et ev, r = Ok (et, ev) ->
           length et = turns /\ length ev = turns.
Proof.
  unfold Diagnostics.test.
  destruct (Split.split (X (self (world k)))) as [[x_train x_cv] x_test].
  destruct (Split.split (Y (self (world k)))) as [[y_train y_cv] y_test].
  intros H. apply test_loop_trace in H. exact H.
Qed.

Lemma test_trace_witness :
  world MoreExamples.ten_rows_after = world MoreExamples.ten_rows_console
  /\ exists turns,
      lines MoreExamples.ten_rows_after
      = lines MoreExamples.ten_rows_console
        ++ Diagnostics.trace 3
             (length (fst (fst (Split.split
                (X (self (world MoreExamples.ten_rows_console)))))))
             1 0 turns
      /\ forall et ev, Ok MoreExamples.ten_rows_curves = Ok (et, ev) ->
           length et = turns /\ length ev = turns.
Proof.
  apply (test_trace Examples.one_step_minimize (fun _ => 0.5%R) 10 3
           MoreExamples.ten_rows_console MoreExamples.ten_rows_after
           (Ok MoreExamples.ten_rows_curves)).
  reflexivity.
Defined.

(** X21.  On fewer than ten examples [test] trains nothing: the training
    block of [split] is empty, the loop is not entered, no line is written
    and both curves are empty. *)
Theorem test_on_fewer_than_ten
        (minimize : vec -> nat -> optimizer) (rng : nat -> R)
        (fuel step : nat) (k : Console) :
  length (X (self (world k))) < 10 ->
  Diagnostics.test minimize rng fuel step k = Some (Ok ([], []), k).
Proof.
  intros H. unfold Diagnostics.test.
  assert (E : Split.split (X (self (world k)))
              = ([], [], X (self (world k)))).
  { unfold Split.split, Split.int_round0.
    rewrite (Nat.div_small _ _ H). simpl.
    unfold slice. simpl. now rewrite Nat.sub_0_r, firstn_all. }
  rewrite E.
  destruct (Split.split (Y (self (world k)))) as [[y_train y_cv] y_test].
  destruct fuel; reflexivity.
Qed.

Lemma test_on_fewer_than_ten_witness :
  Diagnostics.test Examples.one_step_minimize (fun _ => 0.5%R) 5 10
    MoreExamples.two_labels_console
  = Some (Ok ([], []), MoreExamples.two_labels_console).
Proof.
  apply (test_on_fewer_than_ten Examples.one_step_minimize
           (fun _ => 0.5%R) 5 10 MoreExamples.two_labels_console).
  simpl. lia.
Defined.

(** X22.  With [step >= 1] the loop of [test] ends: it makes at most as
    many turns as there are examples. *)
Theorem test_ends
        (minimize : vec -> nat -> optimizer) (rng : nat -> R)
        (fuel step : nat) (k : Console) :
  1 <= step -> length (X (self (world k))) <= fuel ->
  exists out, Diagnostics.test minimize rng fuel step k = Some out.
Proof.
  intros Hstep Hfuel. unfold Diagnostics.test.
  pose proof (split_train_length (X (self (world k)))) as Hn.
  destruct (Split.split (X (self (world k)))) as [[x_train x_cv] x_test].
  destruct (Split.split (Y (self (world k)))) as [[y_train y_cv] y_test].
  cbn [fst] in Hn.
  apply test_loop_ends; [exact Hstep | simpl; lia |]. simpl.
  pose proof (Nat.Div0.mul_div_le (length (X (self (world k)))) 10) as Hd.
  unfold matrix, vec in *. lia.
Qed.

Lemma test_ends_witness :
  exists out,
    Diagnostics.test Examples.one_step_minimize (fun _ => 0.5%R) 10 10
      MoreExamples.ten_rows_console = Some out.
Proof.
  apply (test_ends Examples.one_step_minimize (fun _ => 0.5%R) 10 10
           MoreExamples.ten_rows_console).
  - lia.
  - simpl. lia.
Defined.

(** X23.  With [step = 0] and at least ten examples [test] never returns:
    after the first turn the index stays at 0, so the loop goes on until an
    exception ends it. *)
Theorem test_step_zero_never_returns
        (minimize : vec -> nat -> optimizer) (rng : nat -> R)
        (fuel : nat) (k : Console) :
  10 <= length (X (self (world k))) ->
  Diagnostics.test minimize rng fuel 0 k = None
  \/ exists e k', Diagnostics.test minimize rng fuel 0 k = Some (Raise e, k').
Proof.
  intros H. unfold Diagnostics.test.
  pose proof (split_train_length (X (self (world k)))) as Hn.
  destruct (Split.split (X (self (world k)))) as [[x_train x_cv] x_test].
  destruct (Split.split (Y (self (world k)))) as [[y_train y_cv] y_test].
  cbn [fst] in Hn.
  assert (Hq : 1 <= length (X (self (world k))) / 10)
    by (apply Nat.div_le_lower_bound; lia).
  pose proof (test_loop_stalls minimize rng x_train y_train x_cv y_cv fuel
                {| Diagnostics.errors := ([], []); Diagnostics.amount := 0;
                   Diagnostics.index := 1; Diagnostics.drawn := 0 |} k)
    as Hs.
  simpl in Hs. unfold matrix, vec in *.
  destruct (Diagnostics.test_loop _ _ _ _ _ _ _ _ _ _) as [[[cs | e] k'] |].
  - exfalso. apply (Hs ltac:(lia) ltac:(lia) cs k'). reflexivity.
  - right. now exists e, k'.
  - now left.
Qed.

Lemma test_step_zero_never_returns_witness :
  Diagnostics.test Examples.one_step_minimize (fun _ => 0.5%R) 3 0
    MoreExamples.ten_rows_console = None
  \/ exists e k',
      Diagnostics.test Examples.one_step_minimize (fun _ => 0.5%R) 3 0
        MoreExamples.ten_rows_console = Some (Raise e, k').
Proof.
  apply (test_step_zero_never_returns Examples.one_step_minimize
           (fun _ => 0.5%R) 3 MoreExamples.ten_rows_console).
  simpl. lia.
Defined.
